(** * metrics/peekhandler.go: the channel and xgress peek handlers

    A shallow embedding of [src/metrics/peekhandler.go].  The two handlers
    are passive observers: every method is a short sequence of calls on
    metric handles obtained from the registry.  Those calls are the only
    observable behaviour of the file, so the embedding threads a [World]
    holding the chronological log of collaborator calls and the wall clock,
    and the handlers are written in a small state monad over it. *)

From Stdlib Require Import ZArith List Bool Lia.
From Stdlib Require Import Strings.String Strings.Ascii Strings.Byte.
Import ListNotations.

Local Open Scope Z_scope.

(** ** Time *)

(** [time.Time] and [time.Duration], in nanoseconds. *)
Definition Time := Z.
Definition Duration := Z.

Module time.
Definition Minute : Duration := 60000000000.
End time.

(** ** Metric handles *)

(** Modelled from the spec: the [Meter], [Histogram], [IntervalCounter] and
    [Registry] interfaces are declared elsewhere in package [metrics].  The
    registry is "a process-wide factory producing named
    counters/meters/histograms/interval-counters", so a handle is identified
    by the name (and, for an interval counter, the bucket duration) it was
    requested under. *)
Record Meter := mkMeter { meter_name : string }.
Record Histogram := mkHistogram { histogram_name : string }.
Record IntervalCounter :=
  mkIntervalCounter { counter_name : string; counter_interval : Duration }.

Inductive Handle :=
| HMeter (m : Meter)
| HHistogram (h : Histogram)
| HCounter (c : IntervalCounter).

(** ** The world: a log of collaborator calls and a clock *)

Inductive Event :=
| EvRequest (h : Handle)                       (* registry.Meter / Histogram / IntervalCounter *)
| EvMark (m : Meter) (n : Z)                   (* Meter.Mark(n) *)
| EvUpdate (h : Histogram) (n : Z)             (* Histogram.Update(n) *)
| EvUsage (c : IntervalCounter) (key : string) (t : Time) (amount : Z)
                                               (* IntervalCounter.Update(key, t, amount) *)
| EvDispose (h : Handle)                       (* Dispose() *)
| EvLogError (msg : string).                   (* pfxlog.Logger().Errorf(...) *)

Record World := mkWorld { events : list Event; now : Time }.

(** ** The monad *)

Definition M (A : Type) : Type := World -> A * World.

Definition ret {A} (a : A) : M A := fun w => (a, w).

Definition bind {A B} (m : M A) (f : A -> M B) : M B :=
  fun w => let (a, w') := m w in f a w'.

Notation "x <- m ;; k" := (bind m (fun x => k))
  (at level 61, m at next level, right associativity).
Notation "m ;; k" := (bind m (fun _ => k))
  (at level 61, right associativity).

Definition exec {A} (m : M A) (w : World) : World := snd (m w).
Definition eval {A} (m : M A) (w : World) : A := fst (m w).

Definition emit (e : Event) : M unit :=
  fun w => (tt, mkWorld (events w ++ [e]) (now w)).

(** The environment moving the clock between two handler invocations. *)
Definition set_clock (t : Time) : M unit :=
  fun w => (tt, mkWorld (events w) t).

Module time_ops.
(** [time.Now()] *)
Definition Now : M Time := fun w => (now w, w).
End time_ops.

(** ** Handle methods *)

Definition Meter_Mark (m : Meter) (n : Z) : M unit := emit (EvMark m n).
Definition Meter_Dispose (m : Meter) : M unit := emit (EvDispose (HMeter m)).
Definition Histogram_Update (h : Histogram) (n : Z) : M unit := emit (EvUpdate h n).
Definition Histogram_Dispose (h : Histogram) : M unit := emit (EvDispose (HHistogram h)).
Definition IntervalCounter_Update (c : IntervalCounter) (key : string) (t : Time) (amount : Z)
  : M unit := emit (EvUsage c key t amount).

Module Registry.
Definition Meter (name : string) : M Meter :=
  emit (EvRequest (HMeter (mkMeter name))) ;; ret (mkMeter name).
Definition Histogram (name : string) : M Histogram :=
  emit (EvRequest (HHistogram (mkHistogram name))) ;; ret (mkHistogram name).
Definition IntervalCounter (name : string) (d : Duration) : M IntervalCounter :=
  emit (EvRequest (HCounter (mkIntervalCounter name d))) ;; ret (mkIntervalCounter name d).
End Registry.

Module pfxlog.
(** [pfxlog.Logger().Errorf(format, err)] with the [%v] verb already
    substituted by the error's text. *)
Definition Errorf (format : string) (err : string) : M unit :=
  emit (EvLogError (format ++ err)%string).
End pfxlog.

(** ** Go conversions *)

(** [len] of a slice is a non-negative [int]; [int64(len(b))] and
    [uint64(len(b))] are value preserving on that range. *)
Definition len {A} (l : list A) : Z := Z.of_nat (List.length l).
Arguments len : simpl never.

(** [int32(c)]: two's complement wrap to 32 bits. *)
Definition int32 (z : Z) : Z := (z + 2 ^ 31) mod 2 ^ 32 - 2 ^ 31.

(** ** Collaborator data: channel2 and xgress *)

Module channel2.
(** The part of [channel2.Message] the handler reads. *)
Record Message := mkMessage { ContentType : Z; Body : list byte }.
End channel2.

Module xgress.
(** Modelled from the spec: the originator of a flow is a two-value
    enumeration, "initiator" or "acceptor". *)
Inductive Originator := Initiator | Acceptor.

Record SessionId := mkSessionId { Token : string }.

(** The part of [*xgress.Xgress] the handler reads, through
    [x.Originator()] and [x.SessionId().Token]. *)
Record Xgress := mkXgress { originator : Originator; sessionId : SessionId }.

(** The part of [xgress.Payload] the handlers read. *)
Record Payload := mkPayload { SessionId_ : string; Data : list byte }.

Definition is_Initiator (o : Originator) : bool :=
  match o with Initiator => true | Acceptor => false end.
End xgress.

(** ** A reference frame layout

    The binary layout of a session-data frame belongs to [xgress]; the
    handlers below take the decoder as a parameter.  To run them on concrete
    messages this layout is used: one byte [n], then [n] token bytes, then a
    seven byte fixed header, then the data. *)
Definition frame_UnmarshallPayload (msg : channel2.Message) : xgress.Payload + string :=
  match channel2.Body msg with
  | [] => inr "empty frame"%string
  | n :: rest =>
      let k := Byte.to_nat n in
      if (List.length rest <? k + 7)%nat then inr "truncated frame"%string
      else inl (xgress.mkPayload (string_of_list_byte (firstn k rest))
                                (skipn (k + 7) rest))
  end.

Definition frame_ContentTypePayloadType : Z := 1100.

(** Sample messages in that layout. *)
Definition sample_plain : channel2.Message :=
  channel2.mkMessage 0 (repeat x00 100).
Definition sample_frame_S1 : channel2.Message :=
  channel2.mkMessage 1100 (x02 :: x53 :: x31 :: repeat x00 47).
Definition sample_bad_frame : channel2.Message :=
  channel2.mkMessage 1100 nil.
Definition sample_payload_S1 : xgress.Payload :=
  xgress.mkPayload "S1" (repeat x00 40).

(** ** Observations on the log *)

Definition Meter_eqb (a b : Meter) : bool :=
  String.eqb (meter_name a) (meter_name b).
Definition Histogram_eqb (a b : Histogram) : bool :=
  String.eqb (histogram_name a) (histogram_name b).
Definition IntervalCounter_eqb (a b : IntervalCounter) : bool :=
  String.eqb (counter_name a) (counter_name b)
  && Z.eqb (counter_interval a) (counter_interval b).
Definition Handle_eqb (a b : Handle) : bool :=
  match a, b with
  | HMeter x, HMeter y => Meter_eqb x y
  | HHistogram x, HHistogram y => Histogram_eqb x y
  | HCounter x, HCounter y => IntervalCounter_eqb x y
  | _, _ => false
  end.

(** The handle an event acts on; registry requests and log lines act on none. *)
Definition subject (e : Event) : option Handle :=
  match e with
  | EvMark m _ => Some (HMeter m)
  | EvUpdate h _ => Some (HHistogram h)
  | EvUsage c _ _ _ => Some (HCounter c)
  | EvDispose h => Some h
  | EvRequest _ | EvLogError _ => None
  end.

Definition touches (h : Handle) (e : Event) : bool :=
  match subject e with Some h' => Handle_eqb h h' | None => false end.

(** Total marked on a meter. *)
Fixpoint marked (m : Meter) (evs : list Event) : Z :=
  match evs with
  | [] => 0
  | EvMark m' n :: rest => (if Meter_eqb m m' then n else 0) + marked m rest
  | _ :: rest => marked m rest
  end.

(** The sizes fed to a histogram, in order. *)
Fixpoint updates (h : Histogram) (evs : list Event) : list Z :=
  match evs with
  | [] => []
  | EvUpdate h' n :: rest =>
      if Histogram_eqb h h' then n :: updates h rest else updates h rest
  | _ :: rest => updates h rest
  end.

(** The usage records fed to an interval counter, in order. *)
Fixpoint usage (c : IntervalCounter) (evs : list Event) : list (string * Time * Z) :=
  match evs with
  | [] => []
  | EvUsage c' k t a :: rest =>
      if IntervalCounter_eqb c c' then (k, t, a) :: usage c rest else usage c rest
  | _ :: rest => usage c rest
  end.

(** Every usage record of the log, whatever the counter. *)
Fixpoint all_usage (evs : list Event) : list (IntervalCounter * string * Time * Z) :=
  match evs with
  | [] => []
  | EvUsage c k t a :: rest => (c, k, t, a) :: all_usage rest
  | _ :: rest => all_usage rest
  end.

Definition is_dispose_of (h : Handle) (e : Event) : bool :=
  match e with EvDispose h' => Handle_eqb h h' | _ => false end.

Definition is_use_of (h : Handle) (e : Event) : bool :=
  match e with
  | EvMark _ _ | EvUpdate _ _ | EvUsage _ _ _ _ => touches h e
  | _ => false
  end.

Definition disposals (h : Handle) (evs : list Event) : nat :=
  List.length (filter (is_dispose_of h) evs).

Definition errors_logged (evs : list Event) : list string :=
  flat_map (fun e => match e with EvLogError s => [s] | _ => [] end) evs.

(** No update of [h] occurs later in the log than a disposal of [h]. *)
Fixpoint no_use_after_dispose (h : Handle) (evs : list Event) : bool :=
  match evs with
  | [] => true
  | e :: rest =>
      (if is_dispose_of h e then negb (existsb (is_use_of h) rest) else true)
      && no_use_after_dispose h rest
  end.

Local Open Scope string_scope.

(** ** The channel peek handler *)

Record channelPeekHandler := mkChannelPeekHandler {
  appTxBytesMeter : Meter;
  appTxMsgMeter : Meter;
  appRxBytesMeter : Meter;
  appRxMsgMeter : Meter;

  appTxMsgSizeHistogram : Histogram;
  appRxMsgSizeHistogram : Histogram;

  linkLatencyHistogram : option Histogram;   (* declared, never assigned: nil *)
  linkTxBytesMeter : Meter;
  linkTxMsgMeter : Meter;
  linkRxBytesMeter : Meter;
  linkRxMsgMeter : Meter;
  linkTxMsgSizeHistogram : Histogram;
  linkRxMsgSizeHistogram : Histogram;

  usageRxCounter : IntervalCounter;
  usageTxCounter : IntervalCounter;

  closeHook : option (M unit)
}.

Definition NewChannelPeekHandler (linkId : string) : M channelPeekHandler :=
  appTxBytesMeter <- Registry.Meter "fabric.tx.bytesrate" ;;
  appTxMsgMeter <- Registry.Meter "fabric.tx.msgrate" ;;
  appTxMsgSizeHistogram <- Registry.Histogram "fabric.tx.msgsize" ;;

  appRxBytesMeter <- Registry.Meter "fabric.rx.bytesrate" ;;
  appRxMsgMeter <- Registry.Meter "fabric.rx.msgrate" ;;
  appRxMsgSizeHistogram <- Registry.Histogram "fabric.rx.msgsize" ;;

  linkTxBytesMeter <- Registry.Meter ("link." ++ linkId ++ ".tx.bytesrate") ;;
  linkTxMsgMeter <- Registry.Meter ("link." ++ linkId ++ ".tx.msgrate") ;;
  linkTxMsgSizeHistogram <- Registry.Histogram ("link." ++ linkId ++ ".tx.msgsize") ;;
  linkRxBytesMeter <- Registry.Meter ("link." ++ linkId ++ ".rx.bytesrate") ;;
  linkRxMsgMeter <- Registry.Meter ("link." ++ linkId ++ ".rx.msgrate") ;;
  linkRxMsgSizeHistogram <- Registry.Histogram ("link." ++ linkId ++ ".rx.msgsize") ;;

  usageRxCounter <- Registry.IntervalCounter "usage.fabric.rx" time.Minute ;;
  usageTxCounter <- Registry.IntervalCounter "usage.fabric.tx" time.Minute ;;

  let closeHook : M unit :=
    Meter_Dispose linkTxBytesMeter ;;
    Meter_Dispose linkTxMsgMeter ;;
    Histogram_Dispose linkTxMsgSizeHistogram ;;
    Meter_Dispose linkRxBytesMeter ;;
    Meter_Dispose linkRxMsgMeter ;;
    Histogram_Dispose linkRxMsgSizeHistogram
    (* app level metrics and usageCounter are shared across all links, so
       they are not disposed *)
  in

  ret {| appTxBytesMeter := appTxBytesMeter;
         appTxMsgMeter := appTxMsgMeter;
         appTxMsgSizeHistogram := appTxMsgSizeHistogram;
         appRxBytesMeter := appRxBytesMeter;
         appRxMsgMeter := appRxMsgMeter;
         appRxMsgSizeHistogram := appRxMsgSizeHistogram;
         linkLatencyHistogram := None;
         linkTxBytesMeter := linkTxBytesMeter;
         linkTxMsgMeter := linkTxMsgMeter;
         linkTxMsgSizeHistogram := linkTxMsgSizeHistogram;
         linkRxBytesMeter := linkRxBytesMeter;
         linkRxMsgMeter := linkRxMsgMeter;
         linkRxMsgSizeHistogram := linkRxMsgSizeHistogram;
         usageRxCounter := usageRxCounter;
         usageTxCounter := usageTxCounter;
         closeHook := Some closeHook |}.

(** ** The xgress peek handler *)

Record xgressPeekHandler := mkXgressPeekHandler {
  ingressTxBytesMeter : Meter;
  ingressTxMsgMeter : Meter;
  ingressRxBytesMeter : Meter;
  ingressRxMsgMeter : Meter;
  egressTxBytesMeter : Meter;
  egressTxMsgMeter : Meter;
  egressRxBytesMeter : Meter;
  egressRxMsgMeter : Meter;

  ingressTxMsgSizeHistogram : Histogram;
  ingressRxMsgSizeHistogram : Histogram;
  egressTxMsgSizeHistogram : Histogram;
  egressRxMsgSizeHistogram : Histogram;

  ingressRxUsageCounter : IntervalCounter;
  ingressTxUsageCounter : IntervalCounter;
  egressRxUsageCounter : IntervalCounter;
  egressTxUsageCounter : IntervalCounter
}.

Definition NewXgressPeekHandler : M xgressPeekHandler :=
  ingressTxBytesMeter <- Registry.Meter "ingress.tx.bytesrate" ;;
  ingressTxMsgMeter <- Registry.Meter "ingress.tx.msgrate" ;;
  ingressRxBytesMeter <- Registry.Meter "ingress.rx.bytesrate" ;;
  ingressRxMsgMeter <- Registry.Meter "ingress.rx.msgrate" ;;
  egressTxBytesMeter <- Registry.Meter "egress.tx.bytesrate" ;;
  egressTxMsgMeter <- Registry.Meter "egress.tx.Msgrate" ;;
  egressRxBytesMeter <- Registry.Meter "egress.rx.bytesrate" ;;
  egressRxMsgMeter <- Registry.Meter "egress.rx.msgrate" ;;

  ingressTxMsgSizeHistogram <- Registry.Histogram "ingress.tx.msgsize" ;;
  ingressRxMsgSizeHistogram <- Registry.Histogram "ingress.rx.msgsize" ;;
  egressTxMsgSizeHistogram <- Registry.Histogram "egress.tx.msgsize" ;;
  egressRxMsgSizeHistogram <- Registry.Histogram "egress.rx.msgsize" ;;

  ingressRxUsageCounter <- Registry.IntervalCounter "usage.ingress.rx" time.Minute ;;
  ingressTxUsageCounter <- Registry.IntervalCounter "usage.ingress.tx" time.Minute ;;
  egressRxUsageCounter <- Registry.IntervalCounter "usage.egress.rx" time.Minute ;;
  egressTxUsageCounter <- Registry.IntervalCounter "usage.egress.tx" time.Minute ;;

  ret {| ingressTxBytesMeter := ingressTxBytesMeter;
         ingressTxMsgMeter := ingressTxMsgMeter;
         ingressRxBytesMeter := ingressRxBytesMeter;
         ingressRxMsgMeter := ingressRxMsgMeter;
         egressTxBytesMeter := egressTxBytesMeter;
         egressTxMsgMeter := egressTxMsgMeter;
         egressRxBytesMeter := egressRxBytesMeter;
         egressRxMsgMeter := egressRxMsgMeter;
         ingressTxMsgSizeHistogram := ingressTxMsgSizeHistogram;
         ingressRxMsgSizeHistogram := ingressRxMsgSizeHistogram;
         egressTxMsgSizeHistogram := egressTxMsgSizeHistogram;
         egressRxMsgSizeHistogram := egressRxMsgSizeHistogram;
         ingressRxUsageCounter := ingressRxUsageCounter;
         ingressTxUsageCounter := ingressTxUsageCounter;
         egressRxUsageCounter := egressRxUsageCounter;
         egressTxUsageCounter := egressTxUsageCounter |}.

Definition xgressPeekHandler_Rx (handler : xgressPeekHandler)
    (x : xgress.Xgress) (payload : xgress.Payload) : M unit :=
  let msgSize := len (xgress.Data payload) in
  if xgress.is_Initiator (xgress.originator x) then
    t <- time_ops.Now ;;
    IntervalCounter_Update (ingressRxUsageCounter handler)
      (xgress.Token (xgress.sessionId x)) t msgSize ;;
    Meter_Mark (ingressRxMsgMeter handler) 1 ;;
    Meter_Mark (ingressRxBytesMeter handler) msgSize ;;
    Histogram_Update (ingressRxMsgSizeHistogram handler) msgSize
  else
    t <- time_ops.Now ;;
    IntervalCounter_Update (egressRxUsageCounter handler)
      (xgress.Token (xgress.sessionId x)) t msgSize ;;
    Meter_Mark (egressRxMsgMeter handler) 1 ;;
    Meter_Mark (egressRxBytesMeter handler) msgSize ;;
    Histogram_Update (egressRxMsgSizeHistogram handler) msgSize.

Definition xgressPeekHandler_Tx (handler : xgressPeekHandler)
    (x : xgress.Xgress) (payload : xgress.Payload) : M unit :=
  let msgSize := len (xgress.Data payload) in
  if xgress.is_Initiator (xgress.originator x) then
    t <- time_ops.Now ;;
    IntervalCounter_Update (ingressTxUsageCounter handler)
      (xgress.Token (xgress.sessionId x)) t msgSize ;;
    Meter_Mark (ingressTxMsgMeter handler) 1 ;;
    Meter_Mark (ingressTxBytesMeter handler) msgSize ;;
    Histogram_Update (ingressTxMsgSizeHistogram handler) msgSize
  else
    t <- time_ops.Now ;;
    IntervalCounter_Update (egressTxUsageCounter handler)
      (xgress.Token (xgress.sessionId x)) t msgSize ;;
    Meter_Mark (egressTxMsgMeter handler) 1 ;;
    Meter_Mark (egressTxBytesMeter handler) msgSize ;;
    Histogram_Update (egressTxMsgSizeHistogram handler) msgSize.

Definition xgressPeekHandler_Close (handler : xgressPeekHandler)
    (x : xgress.Xgress) : M unit :=
  ret tt.

(** The handle classes of the xgress handler. *)
Definition ingress_rx_handles (h : xgressPeekHandler) : list Handle :=
  [ HCounter (ingressRxUsageCounter h); HMeter (ingressRxMsgMeter h);
    HMeter (ingressRxBytesMeter h); HHistogram (ingressRxMsgSizeHistogram h) ]%list.
Definition ingress_tx_handles (h : xgressPeekHandler) : list Handle :=
  [ HCounter (ingressTxUsageCounter h); HMeter (ingressTxMsgMeter h);
    HMeter (ingressTxBytesMeter h); HHistogram (ingressTxMsgSizeHistogram h) ]%list.
Definition egress_rx_handles (h : xgressPeekHandler) : list Handle :=
  [ HCounter (egressRxUsageCounter h); HMeter (egressRxMsgMeter h);
    HMeter (egressRxBytesMeter h); HHistogram (egressRxMsgSizeHistogram h) ]%list.
Definition egress_tx_handles (h : xgressPeekHandler) : list Handle :=
  [ HCounter (egressTxUsageCounter h); HMeter (egressTxMsgMeter h);
    HMeter (egressTxBytesMeter h); HHistogram (egressTxMsgSizeHistogram h) ]%list.
Definition ingress_handles (h : xgressPeekHandler) : list Handle :=
  (ingress_rx_handles h ++ ingress_tx_handles h)%list.
Definition egress_handles (h : xgressPeekHandler) : list Handle :=
  (egress_rx_handles h ++ egress_tx_handles h)%list.

(** The handle groups of the channel handler. *)
Definition link_handles (h : channelPeekHandler) : list Handle :=
  [ HMeter (linkTxBytesMeter h); HMeter (linkTxMsgMeter h);
    HHistogram (linkTxMsgSizeHistogram h);
    HMeter (linkRxBytesMeter h); HMeter (linkRxMsgMeter h);
    HHistogram (linkRxMsgSizeHistogram h) ]%list.
Definition app_handles (h : channelPeekHandler) : list Handle :=
  [ HMeter (appTxBytesMeter h); HMeter (appTxMsgMeter h);
    HHistogram (appTxMsgSizeHistogram h);
    HMeter (appRxBytesMeter h); HMeter (appRxMsgMeter h);
    HHistogram (appRxMsgSizeHistogram h) ]%list.
Definition usage_handles (h : channelPeekHandler) : list Handle :=
  [ HCounter (usageRxCounter h); HCounter (usageTxCounter h) ]%list.

(** The events a monadic action appends to the log of [w]. *)
Definition emitted {A} (m : M A) (w : World) : list Event :=
  skipn (List.length (events w)) (events (exec m w)).

(** Handles a list of events acts on. *)
Definition touched (evs : list Event) : list Handle :=
  flat_map (fun e => match subject e with Some h => [h] | None => [] end)%list evs.

Definition requested (evs : list Event) : list Handle :=
  flat_map (fun e => match e with EvRequest h => [h] | _ => [] end)%list evs.


(** The handlers the two constructors return.  The result of a constructor
    does not depend on the world it runs in. *)
Definition channel_tap (linkId : string) : channelPeekHandler :=
  eval (NewChannelPeekHandler linkId) (mkWorld nil 0).
Definition xgress_tap : xgressPeekHandler :=
  eval NewXgressPeekHandler (mkWorld nil 0).

(** A log without any disposal. *)
Definition no_dispose (evs : list Event) : bool :=
  forallb (fun e => match e with EvDispose _ => false | _ => true end) evs.

(** Pairwise distinct handles, decided with [Handle_eqb]. *)
Fixpoint distinct_handles (l : list Handle) : bool :=
  match l with
  | nil => true
  | g :: rest => negb (existsb (Handle_eqb g) rest) && distinct_handles rest
  end.

(** All handles of a handler. *)
Definition channel_handles (h : channelPeekHandler) : list Handle :=
  (app_handles h ++ link_handles h ++ usage_handles h)%list.
Definition xgress_handles (h : xgressPeekHandler) : list Handle :=
  (ingress_handles h ++ egress_handles h)%list.

(** A log holding neither a registry request nor an error line. *)
Definition only_handle_calls (evs : list Event) : bool :=
  forallb (fun e => match e with EvRequest _ | EvLogError _ => false | _ => true end) evs.

(** ** Schedules on the xgress handler *)

(** One call of the session layer on the handler. *)
Inductive XgressInvocation :=
| XInvRx (x : xgress.Xgress) (payload : xgress.Payload)
| XInvTx (x : xgress.Xgress) (payload : xgress.Payload)
| XInvClose (x : xgress.Xgress).

Definition xgress_invoke (h : xgressPeekHandler) (i : XgressInvocation) : M unit :=
  match i with
  | XInvRx x payload => xgressPeekHandler_Rx h x payload
  | XInvTx x payload => xgressPeekHandler_Tx h x payload
  | XInvClose x => xgressPeekHandler_Close h x
  end.

Fixpoint xgress_run (h : xgressPeekHandler) (sched : list (Time * XgressInvocation))
  : M unit :=
  match sched with
  | nil => ret tt
  | (t, i) :: rest => set_clock t ;; xgress_invoke h i ;; xgress_run h rest
  end.

Definition xgress_log_of (h : xgressPeekHandler)
    (sched : list (Time * XgressInvocation)) : list Event :=
  flat_map (fun ti => events (exec (xgress_invoke h (snd ti)) (mkWorld nil (fst ti))))
    sched.

(** The two physical directions and the two flow classes; the class of a
    flow is the branch [x.Originator() == xgress.Initiator] takes. *)
Inductive Direction := DirRx | DirTx.
Inductive FlowClass := Ingress | Egress.

Definition class_of (x : xgress.Xgress) : FlowClass :=
  if xgress.is_Initiator (xgress.originator x) then Ingress else Egress.

Definition FlowClass_eqb (a b : FlowClass) : bool :=
  match a, b with
  | Ingress, Ingress | Egress, Egress => true
  | _, _ => false
  end.

(** The four instruments of a direction and class. *)
Definition usageCounter_of (h : xgressPeekHandler) (d : Direction) (c : FlowClass)
  : IntervalCounter :=
  match d, c with
  | DirRx, Ingress => ingressRxUsageCounter h
  | DirTx, Ingress => ingressTxUsageCounter h
  | DirRx, Egress => egressRxUsageCounter h
  | DirTx, Egress => egressTxUsageCounter h
  end.
Definition msgMeter_of (h : xgressPeekHandler) (d : Direction) (c : FlowClass) : Meter :=
  match d, c with
  | DirRx, Ingress => ingressRxMsgMeter h
  | DirTx, Ingress => ingressTxMsgMeter h
  | DirRx, Egress => egressRxMsgMeter h
  | DirTx, Egress => egressTxMsgMeter h
  end.
Definition bytesMeter_of (h : xgressPeekHandler) (d : Direction) (c : FlowClass) : Meter :=
  match d, c with
  | DirRx, Ingress => ingressRxBytesMeter h
  | DirTx, Ingress => ingressTxBytesMeter h
  | DirRx, Egress => egressRxBytesMeter h
  | DirTx, Egress => egressTxBytesMeter h
  end.
Definition histogram_of (h : xgressPeekHandler) (d : Direction) (c : FlowClass)
  : Histogram :=
  match d, c with
  | DirRx, Ingress => ingressRxMsgSizeHistogram h
  | DirTx, Ingress => ingressTxMsgSizeHistogram h
  | DirRx, Egress => egressRxMsgSizeHistogram h
  | DirTx, Egress => egressTxMsgSizeHistogram h
  end.

(** The payloads of a schedule that travel in direction [d]: session token,
    clock reading of the call, payload size. *)
Definition dir_payloads (d : Direction) (sched : list (Time * XgressInvocation))
  : list (xgress.Xgress * (string * Time * Z)) :=
  flat_map (fun ti =>
              match d, snd ti with
              | DirRx, XInvRx x p | DirTx, XInvTx x p =>
                  [ (x, (xgress.Token (xgress.sessionId x), fst ti, len (xgress.Data p))) ]
              | _, _ => nil
              end)%list sched.

(** Those of them on flows of class [c]. *)
Definition class_payloads (d : Direction) (c : FlowClass)
    (sched : list (Time * XgressInvocation)) : list (string * Time * Z) :=
  map snd (filter (fun xr => FlowClass_eqb (class_of (fst xr)) c) (dir_payloads d sched)).

Definition amounts (l : list (string * Time * Z)) : list Z := map snd l.

Section ChannelPeekHandler.

(** [channel2.Channel]: passed to every method, never inspected. *)
Variable Channel : Type.
(** [xgress.UnmarshallPayload]: the payload, or the error's text. *)
Variable UnmarshallPayload : channel2.Message -> xgress.Payload + string.
(** [xgress.ContentTypePayloadType] *)
Variable ContentTypePayloadType : Z.

Definition channelPeekHandler_Connect (h : channelPeekHandler)
    (ch : Channel) (remoteAddress : string) : M unit :=
  ret tt.

Definition channelPeekHandler_Rx (h : channelPeekHandler)
    (msg : channel2.Message) (ch : Channel) : M unit :=
  let msgSize := len (channel2.Body msg) in
  Meter_Mark (linkRxBytesMeter h) msgSize ;;
  Meter_Mark (linkRxMsgMeter h) 1 ;;
  Histogram_Update (linkRxMsgSizeHistogram h) msgSize ;;
  Meter_Mark (appRxBytesMeter h) msgSize ;;
  Meter_Mark (appRxMsgMeter h) 1 ;;
  Histogram_Update (appRxMsgSizeHistogram h) msgSize ;;

  if (channel2.ContentType msg =? int32 ContentTypePayloadType)%Z then
    match UnmarshallPayload msg with
    | inr err => pfxlog.Errorf "Failed to unmarshal payload. Error: " err
    | inl payload =>
        t <- time_ops.Now ;;
        IntervalCounter_Update (usageRxCounter h) (xgress.SessionId_ payload) t
          (len (xgress.Data payload))
    end
  else ret tt.

Definition channelPeekHandler_Tx (h : channelPeekHandler)
    (msg : channel2.Message) (ch : Channel) : M unit :=
  let msgSize := len (channel2.Body msg) in
  Meter_Mark (linkTxBytesMeter h) msgSize ;;
  Meter_Mark (linkTxMsgMeter h) 1 ;;
  Histogram_Update (linkTxMsgSizeHistogram h) msgSize ;;
  Meter_Mark (appTxBytesMeter h) msgSize ;;
  Meter_Mark (appTxMsgMeter h) 1 ;;
  Histogram_Update (appTxMsgSizeHistogram h) msgSize ;;

  if (channel2.ContentType msg =? int32 ContentTypePayloadType)%Z then
    match UnmarshallPayload msg with
    | inr err => pfxlog.Errorf "Failed to unmarshal payload. Error: " err
    | inl payload =>
        t <- time_ops.Now ;;
        IntervalCounter_Update (usageTxCounter h) (xgress.SessionId_ payload) t
          (len (xgress.Data payload))
    end
  else ret tt.

Definition channelPeekHandler_Close (h : channelPeekHandler) (ch : Channel) : M unit :=
  match closeHook h with
  | Some hook => hook
  | None => ret tt
  end.

(** One call of the transport layer on the handler. *)
Inductive Invocation :=
| InvConnect (ch : Channel) (remoteAddress : string)
| InvRx (msg : channel2.Message) (ch : Channel)
| InvTx (msg : channel2.Message) (ch : Channel)
| InvClose (ch : Channel).

Definition invoke (h : channelPeekHandler) (i : Invocation) : M unit :=
  match i with
  | InvConnect ch a => channelPeekHandler_Connect h ch a
  | InvRx msg ch => channelPeekHandler_Rx h msg ch
  | InvTx msg ch => channelPeekHandler_Tx h msg ch
  | InvClose ch => channelPeekHandler_Close h ch
  end.

(** A schedule: each invocation with the clock reading it happens at. *)
Fixpoint run (h : channelPeekHandler) (sched : list (Time * Invocation)) : M unit :=
  match sched with
  | nil => ret tt
  | (t, i) :: rest => set_clock t ;; invoke h i ;; run h rest
  end.

Definition rx_sizes (sched : list (Time * Invocation)) : list Z :=
  flat_map (fun ti => match snd ti with
                      | InvRx msg _ => [len (channel2.Body msg)]
                      | _ => []
                      end)%list sched.
Definition tx_sizes (sched : list (Time * Invocation)) : list Z :=
  flat_map (fun ti => match snd ti with
                      | InvTx msg _ => [len (channel2.Body msg)]
                      | _ => []
                      end)%list sched.
Definition is_close (ti : Time * Invocation) : bool :=
  match snd ti with InvClose _ => true | _ => false end.
Definition closes (sched : list (Time * Invocation)) : nat :=
  List.length (filter is_close sched).

(** [Close] occurs at most once, and then as the last call. *)
Fixpoint close_only_last (sched : list (Time * Invocation)) : bool :=
  match sched with
  | nil => true
  | ti :: rest =>
      (if is_close ti then match rest with nil => true | _ => false end else true)
      && close_only_last rest
  end.

(** The log a schedule produces: what each invocation writes when run at
    its clock reading. *)
Definition log_of (h : channelPeekHandler) (sched : list (Time * Invocation))
  : list Event :=
  flat_map (fun ti => events (exec (invoke h (snd ti)) (mkWorld nil (fst ti)))) sched.

(** The properties of the link-scoped handles over a log. *)
Definition disposed_at_most_once (h : channelPeekHandler) (evs : list Event) : bool :=
  forallb (fun g => (disposals g evs <=? 1)%nat) (link_handles h).
Definition never_used_after_dispose (h : channelPeekHandler) (evs : list Event) : bool :=
  forallb (fun g => no_use_after_dispose g evs) (link_handles h).

Definition total (l : list Z) : Z := fold_right Z.add 0 l.

(** What the payload branch of [Rx] and [Tx] does with a message: nothing,
    a usage update, or an error line. *)
Definition is_payload_frame (msg : channel2.Message) : bool :=
  (channel2.ContentType msg =? int32 ContentTypePayloadType)%Z.

(** The usage records the inbound (resp. outbound) messages of a schedule
    give rise to: one for each payload frame that decodes. *)
Definition rx_usage (sched : list (Time * Invocation)) : list (string * Time * Z) :=
  flat_map (fun ti =>
              match snd ti with
              | InvRx msg _ =>
                  if is_payload_frame msg then
                    match UnmarshallPayload msg with
                    | inl p => [ (xgress.SessionId_ p, fst ti, len (xgress.Data p)) ]
                    | inr _ => nil
                    end
                  else nil
              | _ => nil
              end)%list sched.
Definition tx_usage (sched : list (Time * Invocation)) : list (string * Time * Z) :=
  flat_map (fun ti =>
              match snd ti with
              | InvTx msg _ =>
                  if is_payload_frame msg then
                    match UnmarshallPayload msg with
                    | inl p => [ (xgress.SessionId_ p, fst ti, len (xgress.Data p)) ]
                    | inr _ => nil
                    end
                  else nil
              | _ => nil
              end)%list sched.

(** The messages of a schedule, in either direction, tagged as payload frames. *)
Definition payload_frames (sched : list (Time * Invocation)) : list channel2.Message :=
  flat_map (fun ti =>
              match snd ti with
              | InvRx msg _ | InvTx msg _ => if is_payload_frame msg then [ msg ] else nil
              | _ => nil
              end)%list sched.

(** The error texts of those that do not decode. *)
Definition decode_errors (sched : list (Time * Invocation)) : list string :=
  flat_map (fun msg => match UnmarshallPayload msg with
                       | inl _ => nil
                       | inr err => [ err ]
                       end)%list (payload_frames sched).

(** * Properties *)

(** ** Append-only actions

    Every action of this file only appends to the log, leaves the clock
    alone, and depends on the world only through the clock. *)
Definition appends {A} (m : M A) : Prop :=
  forall w,
    m w = (eval m (mkWorld nil (now w)),
           mkWorld (events w ++ events (exec m (mkWorld nil (now w)))) (now w)).

Lemma appends_ret A (a : A) : appends (ret a).
Proof.
  intros [evs t]. unfold ret, eval, exec. simpl. now rewrite app_nil_r.
Qed.

Lemma appends_emit e : appends (emit e).
Proof. intros [evs t]. reflexivity. Qed.

Lemma appends_Now : appends time_ops.Now.
Proof.
  intros [evs t]. unfold time_ops.Now, eval, exec. simpl. now rewrite app_nil_r.
Qed.

Lemma appends_bind A B (m : M A) (k : A -> M B) :
  appends m -> (forall a, appends (k a)) -> appends (bind m k).
Proof.
  intros Hm Hk w. unfold bind, eval, exec.
  rewrite (Hm w), (Hm (mkWorld nil (now w))). simpl.
  set (a := eval m (mkWorld nil (now w))).
  set (l := events (exec m (mkWorld nil (now w)))).
  rewrite (Hk a (mkWorld (events w ++ l) (now w))),
          (Hk a (mkWorld l (now w))). simpl.
  now rewrite app_assoc.
Qed.

Lemma appends_events A (m : M A) w :
  appends m -> events (exec m w) = (events w ++ emitted m w)%list.
Proof.
  intros Hm. unfold emitted, exec. rewrite (Hm w). simpl.
  now rewrite skipn_app, skipn_all, Nat.sub_diag.
Qed.

Lemma appends_emitted A (m : M A) w :
  appends m -> emitted m w = events (exec m (mkWorld nil (now w))).
Proof.
  intros Hm. unfold emitted, exec at 1. rewrite (Hm w). simpl.
  now rewrite skipn_app, skipn_all, Nat.sub_diag.
Qed.

Lemma appends_now A (m : M A) w : appends m -> now (exec m w) = now w.
Proof. intros Hm. unfold exec. now rewrite (Hm w). Qed.

Lemma appends_Mark m n : appends (Meter_Mark m n).
Proof. apply appends_emit. Qed.
Lemma appends_Meter_Dispose m : appends (Meter_Dispose m).
Proof. apply appends_emit. Qed.
Lemma appends_Update g n : appends (Histogram_Update g n).
Proof. apply appends_emit. Qed.
Lemma appends_Histogram_Dispose g : appends (Histogram_Dispose g).
Proof. apply appends_emit. Qed.
Lemma appends_Usage c k t a : appends (IntervalCounter_Update c k t a).
Proof. apply appends_emit. Qed.
Lemma appends_Errorf f e : appends (pfxlog.Errorf f e).
Proof. apply appends_emit. Qed.

Lemma appends_Rx h msg ch : appends (channelPeekHandler_Rx h msg ch).
Proof.
  unfold channelPeekHandler_Rx.
  repeat (apply appends_bind; [ apply appends_emit | intros _ ]).
  destruct (_ =? _)%Z; [ | apply appends_ret ].
  destruct (UnmarshallPayload msg); [ | apply appends_Errorf ].
  apply appends_bind; [ apply appends_Now | intros ? ]. apply appends_emit.
Qed.

Lemma appends_Tx h msg ch : appends (channelPeekHandler_Tx h msg ch).
Proof.
  unfold channelPeekHandler_Tx.
  repeat (apply appends_bind; [ apply appends_emit | intros _ ]).
  destruct (_ =? _)%Z; [ | apply appends_ret ].
  destruct (UnmarshallPayload msg); [ | apply appends_Errorf ].
  apply appends_bind; [ apply appends_Now | intros ? ]. apply appends_emit.
Qed.

Lemma NewChannelPeekHandler_eval linkId w :
  eval (NewChannelPeekHandler linkId) w = channel_tap linkId.
Proof. reflexivity. Qed.

Lemma appends_Close linkId ch :
  appends (channelPeekHandler_Close (channel_tap linkId) ch).
Proof.
  unfold channelPeekHandler_Close, channel_tap. cbn [eval fst closeHook].
  simpl.
  repeat (apply appends_bind; [ apply appends_emit | intros _ ]).
  apply appends_emit.
Qed.

Lemma appends_invoke linkId i : appends (invoke (channel_tap linkId) i).
Proof.
  destruct i; simpl invoke.
  - apply appends_ret.
  - apply appends_Rx.
  - apply appends_Tx.
  - apply appends_Close.
Qed.

Lemma run_events linkId sched : forall w,
  events (exec (run (channel_tap linkId) sched) w)
  = (events w ++ log_of (channel_tap linkId) sched)%list.
Proof.
  induction sched as [ | [t i] rest IH ]; intros w.
  - unfold exec. simpl. now rewrite app_nil_r.
  - unfold exec in *. simpl run. unfold bind, set_clock.
    rewrite (appends_invoke linkId i (mkWorld (events w) t)).
    cbn [now events]. rewrite IH. cbn [events].
    unfold log_of. simpl flat_map. unfold exec.
    now rewrite <- app_assoc.
Qed.

(** ** What one call writes *)

Lemma Rx_log h msg ch t :
  events (exec (channelPeekHandler_Rx h msg ch) (mkWorld nil t))
  = ([ EvMark (linkRxBytesMeter h) (len (channel2.Body msg));
       EvMark (linkRxMsgMeter h) 1;
       EvUpdate (linkRxMsgSizeHistogram h) (len (channel2.Body msg));
       EvMark (appRxBytesMeter h) (len (channel2.Body msg));
       EvMark (appRxMsgMeter h) 1;
       EvUpdate (appRxMsgSizeHistogram h) (len (channel2.Body msg)) ]
     ++ (if (channel2.ContentType msg =? int32 ContentTypePayloadType)%Z then
           match UnmarshallPayload msg with
           | inl payload =>
               [ EvUsage (usageRxCounter h) (xgress.SessionId_ payload) t
                   (len (xgress.Data payload)) ]
           | inr err => [ EvLogError ("Failed to unmarshal payload. Error: " ++ err) ]
           end
         else nil))%list.
Proof.
  unfold channelPeekHandler_Rx, exec, bind, Meter_Mark, Histogram_Update, emit.
  cbn [events now snd app].
  destruct (_ =? _)%Z; [ | reflexivity ].
  destruct (UnmarshallPayload msg); reflexivity.
Qed.

Lemma Tx_log h msg ch t :
  events (exec (channelPeekHandler_Tx h msg ch) (mkWorld nil t))
  = ([ EvMark (linkTxBytesMeter h) (len (channel2.Body msg));
       EvMark (linkTxMsgMeter h) 1;
       EvUpdate (linkTxMsgSizeHistogram h) (len (channel2.Body msg));
       EvMark (appTxBytesMeter h) (len (channel2.Body msg));
       EvMark (appTxMsgMeter h) 1;
       EvUpdate (appTxMsgSizeHistogram h) (len (channel2.Body msg)) ]
     ++ (if (channel2.ContentType msg =? int32 ContentTypePayloadType)%Z then
           match UnmarshallPayload msg with
           | inl payload =>
               [ EvUsage (usageTxCounter h) (xgress.SessionId_ payload) t
                   (len (xgress.Data payload)) ]
           | inr err => [ EvLogError ("Failed to unmarshal payload. Error: " ++ err) ]
           end
         else nil))%list.
Proof.
  unfold channelPeekHandler_Tx, exec, bind, Meter_Mark, Histogram_Update, emit.
  cbn [events now snd app].
  destruct (_ =? _)%Z; [ | reflexivity ].
  destruct (UnmarshallPayload msg); reflexivity.
Qed.

Lemma Close_log linkId ch t :
  events (exec (channelPeekHandler_Close (channel_tap linkId) ch) (mkWorld nil t))
  = map EvDispose (link_handles (channel_tap linkId)).
Proof. reflexivity. Qed.

Lemma Connect_log h ch a t :
  events (exec (channelPeekHandler_Connect h ch a) (mkWorld nil t)) = nil.
Proof. reflexivity. Qed.

(** ** Handle names *)

Lemma append_eqb_cancel (x a b : string) : (x ++ a =? x ++ b) = (a =? b).
Proof.
  induction x as [ | c x IH ]; simpl; [ reflexivity | ].
  now rewrite Ascii.eqb_refl, IH.
Qed.

(** Decide equalities between the handles of a constructed handler. *)
Ltac names :=
  cbn;
  repeat rewrite append_eqb_cancel;
  cbn.

Lemma len_nonneg A (l : list A) : 0 <= len l.
Proof. unfold len. lia. Qed.

Lemma len_cons A (a : A) l : len (a :: l) = 1 + len l.
Proof. unfold len. simpl List.length. lia. Qed.

Lemma marked_app m l1 l2 : marked m (l1 ++ l2) = marked m l1 + marked m l2.
Proof.
  induction l1 as [ | e l1 IH ]; simpl; [ reflexivity | ].
  destruct e; rewrite ?IH; try reflexivity. lia.
Qed.

Lemma updates_app g l1 l2 : updates g (l1 ++ l2) = (updates g l1 ++ updates g l2)%list.
Proof.
  induction l1 as [ | e l1 IH ]; simpl; [ reflexivity | ].
  destruct e; rewrite ?IH; try reflexivity.
  destruct (Histogram_eqb g h); reflexivity.
Qed.

Lemma usage_app c l1 l2 : usage c (l1 ++ l2) = (usage c l1 ++ usage c l2)%list.
Proof.
  induction l1 as [ | e l1 IH ]; simpl; [ reflexivity | ].
  destruct e; rewrite ?IH; try reflexivity.
  destruct (IntervalCounter_eqb c c0); reflexivity.
Qed.

Lemma all_usage_app l1 l2 : all_usage (l1 ++ l2) = (all_usage l1 ++ all_usage l2)%list.
Proof.
  induction l1 as [ | e l1 IH ]; simpl; [ reflexivity | ].
  destruct e; rewrite ?IH; reflexivity.
Qed.

Lemma usage_none c l : all_usage l = nil -> usage c l = nil.
Proof.
  induction l as [ | e l IH ]; simpl; [ reflexivity | ].
  destruct e; auto. discriminate.
Qed.

Lemma disposals_app g l1 l2 :
  disposals g (l1 ++ l2) = (disposals g l1 + disposals g l2)%nat.
Proof. unfold disposals. now rewrite filter_app, length_app. Qed.

(** The payload branch of [Rx] and [Tx] marks no meter. *)
Lemma marked_payload_branch m c msg t :
  marked m
    (if (channel2.ContentType msg =? int32 ContentTypePayloadType)%Z then
       match UnmarshallPayload msg with
       | inl payload =>
           [ EvUsage c (xgress.SessionId_ payload) t (len (xgress.Data payload)) ]
       | inr err => [ EvLogError ("Failed to unmarshal payload. Error: " ++ err) ]
       end
     else nil) = 0.
Proof.
  destruct (_ =? _)%Z; [ | reflexivity ].
  destruct (UnmarshallPayload msg); reflexivity.
Qed.

(** Meter totals over the log of any schedule. *)
Lemma log_marked linkId sched :
  let h := channel_tap linkId in
  let evs := log_of h sched in
  (marked (linkRxBytesMeter h) evs = total (rx_sizes sched)
   /\ marked (linkRxMsgMeter h) evs = len (rx_sizes sched)
   /\ marked (appRxBytesMeter h) evs = total (rx_sizes sched)
   /\ marked (appRxMsgMeter h) evs = len (rx_sizes sched))
  /\ (marked (linkTxBytesMeter h) evs = total (tx_sizes sched)
   /\ marked (linkTxMsgMeter h) evs = len (tx_sizes sched)
   /\ marked (appTxBytesMeter h) evs = total (tx_sizes sched)
   /\ marked (appTxMsgMeter h) evs = len (tx_sizes sched)).
Proof.
  intros h evs. subst evs.
  induction sched as [ | [t i] rest IH ].
  - repeat split; reflexivity.
  - unfold log_of in *. simpl flat_map. simpl snd. simpl fst.
    repeat rewrite marked_app.
    destruct IH as [(R1 & R2 & R3 & R4) (T1 & T2 & T3 & T4)].
    rewrite R1, R2, R3, R4, T1, T2, T3, T4. clear R1 R2 R3 R4 T1 T2 T3 T4.
    destruct i as [ ch a | msg ch | msg ch | ch ]; simpl invoke.
    + unfold rx_sizes, tx_sizes. simpl. repeat split; reflexivity.
    + rewrite Rx_log. repeat rewrite marked_app. rewrite !marked_payload_branch.
      unfold rx_sizes, tx_sizes. simpl flat_map. rewrite ?len_cons.
      subst h. names. unfold total. simpl fold_right. repeat split; lia.
    + rewrite Tx_log. repeat rewrite marked_app. rewrite !marked_payload_branch.
      unfold rx_sizes, tx_sizes. simpl flat_map. rewrite ?len_cons.
      subst h. names. unfold total. simpl fold_right. repeat split; lia.
    + subst h. rewrite Close_log.
      unfold rx_sizes, tx_sizes. simpl. repeat split; reflexivity.
Qed.

Lemma rx_sizes_all_rx ch (msgs : list (Time * channel2.Message)) :
  rx_sizes (map (fun tm => (fst tm, InvRx (snd tm) ch)) msgs)
  = map (fun tm => len (channel2.Body (snd tm))) msgs.
Proof.
  induction msgs as [ | tm msgs IH ]; [ reflexivity | ].
  unfold rx_sizes in *. simpl. now rewrite IH.
Qed.

Lemma tx_sizes_all_tx ch (msgs : list (Time * channel2.Message)) :
  tx_sizes (map (fun tm => (fst tm, InvTx (snd tm) ch)) msgs)
  = map (fun tm => len (channel2.Body (snd tm))) msgs.
Proof.
  induction msgs as [ | tm msgs IH ]; [ reflexivity | ].
  unfold tx_sizes in *. simpl. now rewrite IH.
Qed.

Lemma len_map A B (f : A -> B) l : len (map f l) = len l.
Proof. unfold len. now rewrite length_map. Qed.

(** ** The claims on the channel handler *)

(** C1.  For every sequence of N inbound messages with body sizes
    s1..sN passed to [Rx] of a constructed channel handler, the link rx
    byte meter is marked by a total of s1+...+sN and the link rx message
    meter by N, and the application-wide rx byte and message meters
    receive the same totals; likewise for [Tx] with the tx handles. *)
Theorem C1_meter_totals (linkId : string) (w0 w : World) (ch : Channel)
    (msgs : list (Time * channel2.Message)) :
  let h := eval (NewChannelPeekHandler linkId) w0 in
  let sizes := map (fun tm => len (channel2.Body (snd tm))) msgs in
  let N := len msgs in
  let after_rx :=
    events (exec (run h (map (fun tm => (fst tm, InvRx (snd tm) ch)) msgs)) w) in
  let after_tx :=
    events (exec (run h (map (fun tm => (fst tm, InvTx (snd tm) ch)) msgs)) w) in
  (marked (linkRxBytesMeter h) after_rx
     = marked (linkRxBytesMeter h) (events w) + total sizes
   /\ marked (linkRxMsgMeter h) after_rx = marked (linkRxMsgMeter h) (events w) + N
   /\ marked (appRxBytesMeter h) after_rx
     = marked (appRxBytesMeter h) (events w) + total sizes
   /\ marked (appRxMsgMeter h) after_rx = marked (appRxMsgMeter h) (events w) + N)
  /\
  (marked (linkTxBytesMeter h) after_tx
     = marked (linkTxBytesMeter h) (events w) + total sizes
   /\ marked (linkTxMsgMeter h) after_tx = marked (linkTxMsgMeter h) (events w) + N
   /\ marked (appTxBytesMeter h) after_tx
     = marked (appTxBytesMeter h) (events w) + total sizes
   /\ marked (appTxMsgMeter h) after_tx = marked (appTxMsgMeter h) (events w) + N).
Proof.
  intros h sizes N after_rx after_tx.
  subst h after_rx after_tx. rewrite NewChannelPeekHandler_eval.
  rewrite !run_events.
  split.
  - destruct (log_marked linkId (map (fun tm => (fst tm, InvRx (snd tm) ch)) msgs))
      as [(R1 & R2 & R3 & R4) _].
    rewrite rx_sizes_all_rx in R1, R2, R3, R4. rewrite len_map in R2, R4.
    rewrite !marked_app, R1, R2, R3, R4. repeat split; reflexivity.
  - destruct (log_marked linkId (map (fun tm => (fst tm, InvTx (snd tm) ch)) msgs))
      as [_ (T1 & T2 & T3 & T4)].
    rewrite tx_sizes_all_tx in T1, T2, T3, T4. rewrite len_map in T2, T4.
    rewrite !marked_app, T1, T2, T3, T4. repeat split; reflexivity.
Qed.

(** C3.  A message tagged as a session-data payload frame whose body
    fails to decode: [Rx] (and [Tx]) write the six link and application
    meter and histogram updates with the raw message size, then one error
    log line, and nothing else; no usage counter is updated, the clock is
    untouched, and the call returns normally. *)
Theorem C3_decode_failure (h : channelPeekHandler) (msg : channel2.Message)
    (ch : Channel) (err : string) (w : World) :
  channel2.ContentType msg = int32 ContentTypePayloadType ->
  UnmarshallPayload msg = inr err ->
  let size := len (channel2.Body msg) in
  let line := EvLogError ("Failed to unmarshal payload. Error: " ++ err) in
  (channelPeekHandler_Rx h msg ch w
     = (tt, mkWorld (events w ++
                     [ EvMark (linkRxBytesMeter h) size;
                       EvMark (linkRxMsgMeter h) 1;
                       EvUpdate (linkRxMsgSizeHistogram h) size;
                       EvMark (appRxBytesMeter h) size;
                       EvMark (appRxMsgMeter h) 1;
                       EvUpdate (appRxMsgSizeHistogram h) size;
                       line ]) (now w))
   /\ all_usage (emitted (channelPeekHandler_Rx h msg ch) w) = nil
   /\ (forall c, usage c (events (exec (channelPeekHandler_Rx h msg ch) w))
                 = usage c (events w))
   /\ errors_logged (emitted (channelPeekHandler_Rx h msg ch) w)
      = [ ("Failed to unmarshal payload. Error: " ++ err)%string ]%list)
  /\
  (channelPeekHandler_Tx h msg ch w
     = (tt, mkWorld (events w ++
                     [ EvMark (linkTxBytesMeter h) size;
                       EvMark (linkTxMsgMeter h) 1;
                       EvUpdate (linkTxMsgSizeHistogram h) size;
                       EvMark (appTxBytesMeter h) size;
                       EvMark (appTxMsgMeter h) 1;
                       EvUpdate (appTxMsgSizeHistogram h) size;
                       line ]) (now w))
   /\ all_usage (emitted (channelPeekHandler_Tx h msg ch) w) = nil
   /\ (forall c, usage c (events (exec (channelPeekHandler_Tx h msg ch) w))
                 = usage c (events w))
   /\ errors_logged (emitted (channelPeekHandler_Tx h msg ch) w)
      = [ ("Failed to unmarshal payload. Error: " ++ err)%string ]%list).
Proof.
  intros Hct Herr size line.
  assert (Hrx : emitted (channelPeekHandler_Rx h msg ch) w
                = [ EvMark (linkRxBytesMeter h) size;
                    EvMark (linkRxMsgMeter h) 1;
                    EvUpdate (linkRxMsgSizeHistogram h) size;
                    EvMark (appRxBytesMeter h) size;
                    EvMark (appRxMsgMeter h) 1;
                    EvUpdate (appRxMsgSizeHistogram h) size;
                    line ]%list).
  { rewrite appends_emitted by apply appends_Rx.
    rewrite Rx_log, Hct, Z.eqb_refl, Herr. reflexivity. }
  assert (Htx : emitted (channelPeekHandler_Tx h msg ch) w
                = [ EvMark (linkTxBytesMeter h) size;
                    EvMark (linkTxMsgMeter h) 1;
                    EvUpdate (linkTxMsgSizeHistogram h) size;
                    EvMark (appTxBytesMeter h) size;
                    EvMark (appTxMsgMeter h) 1;
                    EvUpdate (appTxMsgSizeHistogram h) size;
                    line ]%list).
  { rewrite appends_emitted by apply appends_Tx.
    rewrite Tx_log, Hct, Z.eqb_refl, Herr. reflexivity. }
  split.
  - repeat split.
    + rewrite (appends_Rx h msg ch w). unfold eval.
      rewrite <- appends_emitted by apply appends_Rx. rewrite Hrx.
      destruct (fst _). reflexivity.
    + rewrite Hrx. reflexivity.
    + intros c. rewrite appends_events by apply appends_Rx.
      rewrite usage_app, Hrx. simpl. now rewrite app_nil_r.
    + rewrite Hrx. reflexivity.
  - repeat split.
    + rewrite (appends_Tx h msg ch w). unfold eval.
      rewrite <- appends_emitted by apply appends_Tx. rewrite Htx.
      destruct (fst _). reflexivity.
    + rewrite Htx. reflexivity.
    + intros c. rewrite appends_events by apply appends_Tx.
      rewrite usage_app, Htx. simpl. now rewrite app_nil_r.
    + rewrite Htx. reflexivity.
Qed.

(** C4.  A message tagged as a session-data payload frame that decodes
    to a payload with session token T and data D: [Rx] performs exactly
    one usage update, on the inbound usage counter, keyed by T, with
    amount [len D], stamped with the clock reading of the call.  A
    message with any other content type causes no usage update. *)
Theorem C4_usage_update (h : channelPeekHandler) (msg : channel2.Message)
    (ch : Channel) (w : World) :
  (forall payload,
      channel2.ContentType msg = int32 ContentTypePayloadType ->
      UnmarshallPayload msg = inl payload ->
      all_usage (emitted (channelPeekHandler_Rx h msg ch) w)
      = [ (usageRxCounter h, xgress.SessionId_ payload, now w,
           len (xgress.Data payload)) ]%list
      /\ errors_logged (emitted (channelPeekHandler_Rx h msg ch) w) = nil)
  /\ (channel2.ContentType msg <> int32 ContentTypePayloadType ->
      all_usage (emitted (channelPeekHandler_Rx h msg ch) w) = nil).
Proof.
  rewrite appends_emitted by apply appends_Rx. rewrite Rx_log.
  split.
  - intros payload Hct Hdec. rewrite Hct, Z.eqb_refl, Hdec. split; reflexivity.
  - intros Hct. apply Z.eqb_neq in Hct. rewrite Hct. reflexivity.
Qed.

(** C5.  [Close] on a constructed channel handler writes exactly six
    events: one disposal for each of the six link-scoped handles.  The
    clock is unchanged, no event touches an application-wide handle or a
    usage counter, and each link-scoped handle is disposed once. *)
Theorem C5_close_disposes_link_handles (linkId : string) (w0 w : World)
    (ch : Channel) :
  let h := eval (NewChannelPeekHandler linkId) w0 in
  channelPeekHandler_Close h ch w
    = (tt, mkWorld (events w ++ map EvDispose (link_handles h)) (now w))
  /\ List.length (link_handles h) = 6%nat
  /\ (forall g, In g (link_handles h) ->
        disposals g (emitted (channelPeekHandler_Close h ch) w) = 1%nat)
  /\ (forall g, In g (app_handles h ++ usage_handles h) ->
        existsb (touches g) (emitted (channelPeekHandler_Close h ch) w) = false).
Proof.
  intros h. subst h. rewrite NewChannelPeekHandler_eval.
  split.
  { rewrite (appends_Close linkId ch w), Close_log. reflexivity. }
  split; [ reflexivity | ].
  rewrite appends_emitted by apply appends_Close. rewrite Close_log.
  split; intros g Hg; simpl in Hg;
    repeat (destruct Hg as [ <- | Hg ]; [ names; reflexivity | ]);
    destruct Hg.
Qed.

Lemma nuad_no_dispose g l : no_dispose l = true -> no_use_after_dispose g l = true.
Proof.
  induction l as [ | e l IH ]; simpl; [ reflexivity | ].
  intros H. apply andb_true_iff in H as [He Hl].
  rewrite (IH Hl). destruct e; try reflexivity. discriminate.
Qed.

Lemma nuad_app g l1 l2 :
  no_dispose l1 = true ->
  no_use_after_dispose g (l1 ++ l2) = no_use_after_dispose g l2.
Proof.
  induction l1 as [ | e l1 IH ]; simpl; [ reflexivity | ].
  intros H. apply andb_true_iff in H as [He Hl].
  rewrite (IH Hl). destruct e; try reflexivity. discriminate.
Qed.

Lemma nuad_disposes g hs : no_use_after_dispose g (map EvDispose hs) = true.
Proof.
  induction hs as [ | a hs IH ]; simpl; [ reflexivity | ].
  rewrite IH, andb_true_r.
  destruct (Handle_eqb g a); [ | reflexivity ].
  apply negb_true_iff. clear. induction hs; simpl; auto.
Qed.

Lemma disposals_no_dispose g l : no_dispose l = true -> disposals g l = 0%nat.
Proof.
  unfold disposals.
  induction l as [ | e l IH ]; simpl; [ reflexivity | ].
  intros H. apply andb_true_iff in H as [He Hl].
  destruct e; try (apply IH; assumption). discriminate.
Qed.

(** Only [Close] writes disposals. *)
Lemma invoke_no_dispose h t i :
  is_close (t, i) = false ->
  no_dispose (events (exec (invoke h i) (mkWorld nil t))) = true.
Proof.
  destruct i as [ ch a | msg ch | msg ch | ch ]; simpl invoke; intros Hc.
  - reflexivity.
  - rewrite Rx_log. destruct (_ =? _)%Z; [ | reflexivity ].
    destruct (UnmarshallPayload msg); reflexivity.
  - rewrite Tx_log. destruct (_ =? _)%Z; [ | reflexivity ].
    destruct (UnmarshallPayload msg); reflexivity.
  - discriminate.
Qed.

Lemma close_disposals linkId ch t g :
  In g (link_handles (channel_tap linkId)) ->
  disposals g (events (exec (channelPeekHandler_Close (channel_tap linkId) ch)
                         (mkWorld nil t))) = 1%nat.
Proof.
  rewrite Close_log. intros Hg. simpl in Hg.
  repeat (destruct Hg as [ <- | Hg ]; [ names; reflexivity | ]).
  destruct Hg.
Qed.

Lemma log_disposals linkId sched g :
  In g (link_handles (channel_tap linkId)) ->
  disposals g (log_of (channel_tap linkId) sched) = closes sched.
Proof.
  intros Hg. induction sched as [ | [t i] rest IH ]; [ reflexivity | ].
  unfold log_of in *. simpl flat_map. rewrite disposals_app, IH.
  unfold closes. simpl filter.
  destruct (is_close (t, i)) eqn:Hc.
  - destruct i; try discriminate. simpl invoke. simpl fst.
    rewrite close_disposals by assumption. reflexivity.
  - simpl snd. simpl fst. rewrite disposals_no_dispose; [ reflexivity | ].
    now apply invoke_no_dispose.
Qed.

Lemma close_only_last_closes sched :
  close_only_last sched = true -> (closes sched <= 1)%nat.
Proof.
  unfold closes.
  induction sched as [ | ti rest IH ]; simpl; [ lia | ].
  intros H. apply andb_true_iff in H as [H1 H2].
  destruct (is_close ti).
  - destruct rest; [ simpl; lia | discriminate ].
  - auto.
Qed.

Lemma log_nuad linkId sched g :
  close_only_last sched = true ->
  no_use_after_dispose g (log_of (channel_tap linkId) sched) = true.
Proof.
  induction sched as [ | [t i] rest IH ]; [ reflexivity | ].
  simpl close_only_last. intros H. apply andb_true_iff in H as [H1 H2].
  unfold log_of in *. simpl flat_map. simpl snd. simpl fst.
  destruct (is_close (t, i)) eqn:Hc.
  - destruct rest; [ | discriminate ]. destruct i; try discriminate.
    simpl invoke. rewrite Close_log. simpl flat_map. rewrite app_nil_r.
    apply nuad_disposes.
  - rewrite nuad_app by (now apply invoke_no_dispose). auto.
Qed.

Lemma run_emitted linkId sched w :
  emitted (run (channel_tap linkId) sched) w = log_of (channel_tap linkId) sched.
Proof.
  unfold emitted. rewrite run_events.
  now rewrite skipn_app, skipn_all, Nat.sub_diag.
Qed.

Lemma Handle_eqb_eq (g g' : Handle) : Handle_eqb g g' = true -> g = g'.
Proof.
  destruct g as [ [n] | [n] | [n d] ], g' as [ [n'] | [n'] | [n' d'] ];
    simpl; try discriminate.
  - unfold Meter_eqb. simpl. intros H. apply String.eqb_eq in H. now subst.
  - unfold Histogram_eqb. simpl. intros H. apply String.eqb_eq in H. now subst.
  - unfold IntervalCounter_eqb. simpl. intros H.
    apply andb_true_iff in H as [Hn Hd].
    apply String.eqb_eq in Hn. apply Z.eqb_eq in Hd. now subst.
Qed.

(** Disposing the handles of [hs] disposes nothing outside [hs]. *)
Lemma disposals_elsewhere g hs :
  ~ In g hs -> disposals g (map EvDispose hs) = 0%nat.
Proof.
  unfold disposals.
  induction hs as [ | a hs IH ]; simpl; [ reflexivity | ].
  intros Hn. destruct (Handle_eqb g a) eqn:E.
  - exfalso. apply Hn. left. symmetry. now apply Handle_eqb_eq.
  - apply IH. intros Hin. apply Hn. now right.
Qed.

Lemma log_disposals_elsewhere linkId sched g :
  ~ In g (link_handles (channel_tap linkId)) ->
  disposals g (log_of (channel_tap linkId) sched) = 0%nat.
Proof.
  intros Hg. induction sched as [ | [t i] rest IH ]; [ reflexivity | ].
  unfold log_of in *. simpl flat_map. rewrite disposals_app, IH, Nat.add_0_r.
  simpl snd. simpl fst.
  destruct (is_close (t, i)) eqn:Hc.
  - destruct i; try discriminate. simpl invoke. rewrite Close_log.
    now apply disposals_elsewhere.
  - apply disposals_no_dispose. now apply invoke_no_dispose.
Qed.

(** C6, as the code has it.  The calls on a handler are made one after
    another.  Every [Close] runs the disposal hook: over any schedule of
    calls each link-scoped handle is disposed once per [Close] call and no
    other handle is ever disposed; [Connect], [Rx] and [Tx] dispose
    nothing, whatever the world they run in.  When the caller closes at most
    once and issues nothing after the close, each link-scoped handle is
    disposed at most once and is never updated after its disposal. *)
Theorem C6_disposal_per_close (linkId : string) (w0 w : World)
    (sched : list (Time * Invocation)) :
  let h := eval (NewChannelPeekHandler linkId) w0 in
  let evs := emitted (run h sched) w in
  (forall g, In g (link_handles h) -> disposals g evs = closes sched)
  /\ (forall g, ~ In g (link_handles h) -> disposals g evs = 0%nat)
  /\ ((forall w' ch a, no_dispose (emitted (channelPeekHandler_Connect h ch a) w') = true)
      /\ (forall w' msg ch, no_dispose (emitted (channelPeekHandler_Rx h msg ch) w') = true)
      /\ (forall w' msg ch, no_dispose (emitted (channelPeekHandler_Tx h msg ch) w') = true))
  /\ (close_only_last sched = true ->
      disposed_at_most_once h evs = true
      /\ never_used_after_dispose h evs = true).
Proof.
  intros h evs. subst h evs. rewrite NewChannelPeekHandler_eval.
  rewrite run_emitted. split; [ | split; [ | split ] ].
  - intros g Hg. now apply log_disposals.
  - intros g Hg. now apply log_disposals_elsewhere.
  - split; [ | split ].
    + intros w' ch a.
      unfold channelPeekHandler_Connect, emitted, exec, ret. simpl.
      now rewrite skipn_all.
    + intros w' msg ch.
      rewrite (appends_emitted _ _ w' (appends_Rx _ msg ch)).
      now apply (invoke_no_dispose _ (now w') (InvRx msg ch)).
    + intros w' msg ch.
      rewrite (appends_emitted _ _ w' (appends_Tx _ msg ch)).
      now apply (invoke_no_dispose _ (now w') (InvTx msg ch)).
  - intros Hlast. split.
    + unfold disposed_at_most_once. apply forallb_forall. intros g Hg.
      rewrite log_disposals by assumption.
      apply Nat.leb_le. now apply close_only_last_closes.
    + unfold never_used_after_dispose. apply forallb_forall. intros g Hg.
      now apply log_nuad.
Qed.

(** C7.  A handler constructed for link "L1" on an empty log; [Rx] of a
    100-byte message that is not a payload frame, then [Tx] of a 50-byte
    payload frame that decodes to session "S1" with 40 bytes of data.  The
    link rx byte meter totals 100, the link tx byte meter totals 50, the
    log holds exactly one usage update, on the outbound usage counter with
    key "S1" and amount 40, and the inbound usage counter has none. *)
Theorem C7_scenario_L1 (t0 t1 t2 : Time) (ch : Channel)
    (m1 m2 : channel2.Message) (p : xgress.Payload) :
  len (channel2.Body m1) = 100 ->
  channel2.ContentType m1 <> int32 ContentTypePayloadType ->
  len (channel2.Body m2) = 50 ->
  channel2.ContentType m2 = int32 ContentTypePayloadType ->
  UnmarshallPayload m2 = inl p ->
  xgress.SessionId_ p = "S1" ->
  len (xgress.Data p) = 40 ->
  let prog :=
    h <- NewChannelPeekHandler "L1" ;;
    set_clock t1 ;; channelPeekHandler_Rx h m1 ch ;;
    set_clock t2 ;; channelPeekHandler_Tx h m2 ch ;;
    ret h in
  let h := eval prog (mkWorld nil t0) in
  let evs := events (exec prog (mkWorld nil t0)) in
  marked (linkRxBytesMeter h) evs = 100
  /\ marked (linkTxBytesMeter h) evs = 50
  /\ all_usage evs = [ (usageTxCounter h, "S1", t2, 40) ]%list
  /\ usage (usageTxCounter h) evs = [ ("S1", t2, 40) ]%list
  /\ usage (usageRxCounter h) evs = nil.
Proof.
  intros L1 C1 L2 C2 D S LD prog h evs.
  apply Z.eqb_neq in C1.
  subst prog h evs.
  unfold eval, exec, bind, channelPeekHandler_Rx, channelPeekHandler_Tx.
  rewrite C1, C2, Z.eqb_refl, D.
  cbn. rewrite L1, L2, S, LD.
  repeat split; reflexivity.
Qed.

(** C9.  [Connect] of the channel handler and [Close] of the xgress
    handler return the world they were given: nothing is written to the
    log, nothing is disposed, the clock is not moved. *)
Theorem C9_no_op_hooks (h : channelPeekHandler) (ch : Channel)
    (remoteAddress : string) (handler : xgressPeekHandler) (x : xgress.Xgress)
    (w : World) :
  (channelPeekHandler_Connect h ch remoteAddress w = (tt, w)
   /\ emitted (channelPeekHandler_Connect h ch remoteAddress) w = nil)
  /\ (xgressPeekHandler_Close handler x w = (tt, w)
      /\ emitted (xgressPeekHandler_Close handler x) w = nil).
Proof.
  unfold emitted, exec, channelPeekHandler_Connect, xgressPeekHandler_Close, ret.
  simpl. rewrite skipn_all. repeat split; reflexivity.
Qed.

(** ** The xgress handler *)

Lemma NewXgressPeekHandler_eval w : eval NewXgressPeekHandler w = xgress_tap.
Proof. reflexivity. Qed.

Lemma appends_xgress_Rx h x payload : appends (xgressPeekHandler_Rx h x payload).
Proof.
  unfold xgressPeekHandler_Rx.
  destruct (xgress.is_Initiator _);
    (apply appends_bind; [ apply appends_Now | intros ? ]);
    repeat (apply appends_bind; [ apply appends_emit | intros _ ]);
    apply appends_emit.
Qed.

Lemma appends_xgress_Tx h x payload : appends (xgressPeekHandler_Tx h x payload).
Proof.
  unfold xgressPeekHandler_Tx.
  destruct (xgress.is_Initiator _);
    (apply appends_bind; [ apply appends_Now | intros ? ]);
    repeat (apply appends_bind; [ apply appends_emit | intros _ ]);
    apply appends_emit.
Qed.

Lemma not_Initiator o : o <> xgress.Initiator -> xgress.is_Initiator o = false.
Proof. destruct o; [ intros H; now destruct H | reflexivity ]. Qed.

(** C2.  On a constructed xgress handler, a flow whose originator is
    [Initiator] has its [Rx] write exactly the four ingress-rx updates
    (usage counter, message meter, byte meter, size histogram) and its
    [Tx] exactly the four ingress-tx updates, and neither touches an
    egress handle; a flow with any other originator has [Rx] write the
    four egress-rx updates and [Tx] the four egress-tx updates, and neither
    touches an ingress handle.  The class follows the originator alone. *)
Theorem C2_classification (w0 w : World) (x : xgress.Xgress)
    (payload : xgress.Payload) :
  let h := eval NewXgressPeekHandler w0 in
  let size := len (xgress.Data payload) in
  let tok := xgress.Token (xgress.sessionId x) in
  let rx := emitted (xgressPeekHandler_Rx h x payload) w in
  let tx := emitted (xgressPeekHandler_Tx h x payload) w in
  (xgress.originator x = xgress.Initiator ->
     rx = [ EvUsage (ingressRxUsageCounter h) tok (now w) size;
            EvMark (ingressRxMsgMeter h) 1;
            EvMark (ingressRxBytesMeter h) size;
            EvUpdate (ingressRxMsgSizeHistogram h) size ]%list
     /\ tx = [ EvUsage (ingressTxUsageCounter h) tok (now w) size;
               EvMark (ingressTxMsgMeter h) 1;
               EvMark (ingressTxBytesMeter h) size;
               EvUpdate (ingressTxMsgSizeHistogram h) size ]%list
     /\ touched rx = ingress_rx_handles h
     /\ touched tx = ingress_tx_handles h
     /\ (forall g, In g (egress_handles h) ->
           existsb (touches g) rx = false /\ existsb (touches g) tx = false))
  /\
  (xgress.originator x <> xgress.Initiator ->
     rx = [ EvUsage (egressRxUsageCounter h) tok (now w) size;
            EvMark (egressRxMsgMeter h) 1;
            EvMark (egressRxBytesMeter h) size;
            EvUpdate (egressRxMsgSizeHistogram h) size ]%list
     /\ tx = [ EvUsage (egressTxUsageCounter h) tok (now w) size;
               EvMark (egressTxMsgMeter h) 1;
               EvMark (egressTxBytesMeter h) size;
               EvUpdate (egressTxMsgSizeHistogram h) size ]%list
     /\ touched rx = egress_rx_handles h
     /\ touched tx = egress_tx_handles h
     /\ (forall g, In g (ingress_handles h) ->
           existsb (touches g) rx = false /\ existsb (touches g) tx = false)).
Proof.
  intros h size tok rx tx. subst h rx tx.
  rewrite NewXgressPeekHandler_eval.
  rewrite (appends_emitted _ _ w (appends_xgress_Rx _ _ _)).
  rewrite (appends_emitted _ _ w (appends_xgress_Tx _ _ _)).
  unfold xgressPeekHandler_Rx, xgressPeekHandler_Tx.
  split; intros Ho.
  - rewrite Ho. cbn [xgress.is_Initiator].
    repeat (split; [ reflexivity | ]).
    intros g Hg. simpl in Hg.
    repeat (destruct Hg as [ <- | Hg ]; [ split; reflexivity | ]).
    destruct Hg.
  - rewrite (not_Initiator _ Ho).
    repeat (split; [ reflexivity | ]).
    intros g Hg. simpl in Hg.
    repeat (destruct Hg as [ <- | Hg ]; [ split; reflexivity | ]).
    destruct Hg.
Qed.

(** C8.  A constructed xgress handler on an empty log; [Rx] on an
    initiator-originated flow with token "S2" and a 10-byte payload, then
    [Tx] on the same flow with a 5-byte payload.  The ingress-rx byte
    meter totals 10, the ingress-tx byte meter totals 5, no event touches
    an egress handle, and the usage updates are ("S2", 10) on the
    ingress-rx counter and ("S2", 5) on the ingress-tx counter. *)
Theorem C8_scenario_S2 (t0 t1 t2 : Time) (p1 p2 : xgress.Payload) :
  len (xgress.Data p1) = 10 ->
  len (xgress.Data p2) = 5 ->
  let x := xgress.mkXgress xgress.Initiator (xgress.mkSessionId "S2") in
  let prog :=
    h <- NewXgressPeekHandler ;;
    set_clock t1 ;; xgressPeekHandler_Rx h x p1 ;;
    set_clock t2 ;; xgressPeekHandler_Tx h x p2 ;;
    ret h in
  let h := eval prog (mkWorld nil t0) in
  let evs := events (exec prog (mkWorld nil t0)) in
  marked (ingressRxBytesMeter h) evs = 10
  /\ marked (ingressTxBytesMeter h) evs = 5
  /\ (forall g, In g (egress_handles h) -> existsb (touches g) evs = false)
  /\ usage (ingressRxUsageCounter h) evs = [ ("S2", t1, 10) ]%list
  /\ usage (ingressTxUsageCounter h) evs = [ ("S2", t2, 5) ]%list
  /\ all_usage evs = [ (ingressRxUsageCounter h, "S2", t1, 10);
                       (ingressTxUsageCounter h, "S2", t2, 5) ]%list.
Proof.
  intros L1 L2 x prog h evs. subst x prog h evs.
  unfold eval, exec, bind. cbn. rewrite L1, L2.
  repeat (split; [ reflexivity | ]).
  split.
  - intros g Hg.
    repeat (destruct Hg as [ <- | Hg ]; [ reflexivity | ]).
    destruct Hg.
  - repeat split; reflexivity.
Qed.

(** ** Names requested from the registry *)


Lemma appends_Registry_Meter n : appends (Registry.Meter n).
Proof. apply appends_bind; [ apply appends_emit | intros _; apply appends_ret ]. Qed.
Lemma appends_Registry_Histogram n : appends (Registry.Histogram n).
Proof. apply appends_bind; [ apply appends_emit | intros _; apply appends_ret ]. Qed.
Lemma appends_Registry_IntervalCounter n d : appends (Registry.IntervalCounter n d).
Proof. apply appends_bind; [ apply appends_emit | intros _; apply appends_ret ]. Qed.

Lemma appends_NewChannelPeekHandler linkId : appends (NewChannelPeekHandler linkId).
Proof.
  unfold NewChannelPeekHandler.
  repeat (apply appends_bind;
          [ first [ apply appends_Registry_Meter | apply appends_Registry_Histogram
                  | apply appends_Registry_IntervalCounter ] | intros ? ]).
  apply appends_ret.
Qed.

Lemma appends_NewXgressPeekHandler : appends NewXgressPeekHandler.
Proof.
  unfold NewXgressPeekHandler.
  repeat (apply appends_bind;
          [ first [ apply appends_Registry_Meter | apply appends_Registry_Histogram
                  | apply appends_Registry_IntervalCounter ] | intros ? ]).
  apply appends_ret.
Qed.


(** * Further properties of the channel handler *)

Lemma updates_payload_branch g c msg t :
  updates g
    (if (channel2.ContentType msg =? int32 ContentTypePayloadType)%Z then
       match UnmarshallPayload msg with
       | inl payload =>
           [ EvUsage c (xgress.SessionId_ payload) t (len (xgress.Data payload)) ]
       | inr err => [ EvLogError ("Failed to unmarshal payload. Error: " ++ err) ]
       end
     else nil) = nil.
Proof.
  destruct (_ =? _)%Z; [ | reflexivity ].
  destruct (UnmarshallPayload msg); reflexivity.
Qed.

Lemma errors_logged_app l1 l2 :
  errors_logged (l1 ++ l2) = (errors_logged l1 ++ errors_logged l2)%list.
Proof. unfold errors_logged. apply flat_map_app. Qed.

Lemma touched_app l1 l2 : touched (l1 ++ l2) = (touched l1 ++ touched l2)%list.
Proof. unfold touched. apply flat_map_app. Qed.

Lemma requested_app l1 l2 : requested (l1 ++ l2) = (requested l1 ++ requested l2)%list.
Proof. unfold requested. apply flat_map_app. Qed.

Lemma log_of_cons h t i rest :
  log_of h ((t, i) :: rest)
  = (events (exec (invoke h i) (mkWorld nil t)) ++ log_of h rest)%list.
Proof. reflexivity. Qed.

(** X1.  Over any interleaving of [Connect], [Rx], [Tx] and [Close] calls
    on a constructed channel handler, the four rx meters (link and
    application-wide, bytes and messages) gain the sum and the count of the
    sizes of the [Rx] messages, and the four tx meters those of the [Tx]
    messages: calls of one direction never reach the meters of the other,
    and [Connect] and [Close] mark nothing. *)
Theorem X1_meters_any_interleaving (linkId : string) (w0 w : World)
    (sched : list (Time * Invocation)) :
  let h := eval (NewChannelPeekHandler linkId) w0 in
  let before := events w in
  let after := events (exec (run h sched) w) in
  (marked (linkRxBytesMeter h) after
     = marked (linkRxBytesMeter h) before + total (rx_sizes sched)
   /\ marked (linkRxMsgMeter h) after
     = marked (linkRxMsgMeter h) before + len (rx_sizes sched)
   /\ marked (appRxBytesMeter h) after
     = marked (appRxBytesMeter h) before + total (rx_sizes sched)
   /\ marked (appRxMsgMeter h) after
     = marked (appRxMsgMeter h) before + len (rx_sizes sched))
  /\
  (marked (linkTxBytesMeter h) after
     = marked (linkTxBytesMeter h) before + total (tx_sizes sched)
   /\ marked (linkTxMsgMeter h) after
     = marked (linkTxMsgMeter h) before + len (tx_sizes sched)
   /\ marked (appTxBytesMeter h) after
     = marked (appTxBytesMeter h) before + total (tx_sizes sched)
   /\ marked (appTxMsgMeter h) after
     = marked (appTxMsgMeter h) before + len (tx_sizes sched)).
Proof.
  intros h before after. subst h before after.
  rewrite NewChannelPeekHandler_eval, run_events, !marked_app.
  destruct (log_marked linkId sched) as [(R1 & R2 & R3 & R4) (T1 & T2 & T3 & T4)].
  rewrite R1, R2, R3, R4, T1, T2, T3, T4. repeat split; reflexivity.
Qed.

Lemma log_updates linkId sched :
  let h := channel_tap linkId in
  let evs := log_of h sched in
  (updates (linkRxMsgSizeHistogram h) evs = rx_sizes sched
   /\ updates (appRxMsgSizeHistogram h) evs = rx_sizes sched)
  /\ (updates (linkTxMsgSizeHistogram h) evs = tx_sizes sched
      /\ updates (appTxMsgSizeHistogram h) evs = tx_sizes sched).
Proof.
  intros h evs. subst evs.
  induction sched as [ | [t i] rest IH ].
  - repeat split; reflexivity.
  - rewrite log_of_cons, !updates_app.
    destruct IH as [(R1 & R2) (T1 & T2)].
    rewrite R1, R2, T1, T2. clear R1 R2 T1 T2.
    destruct i as [ ch a | msg ch | msg ch | ch ]; simpl invoke.
    + repeat split; reflexivity.
    + rewrite Rx_log, !updates_app, !updates_payload_branch.
      unfold rx_sizes, tx_sizes. simpl flat_map.
      subst h. names. repeat split; reflexivity.
    + rewrite Tx_log, !updates_app, !updates_payload_branch.
      unfold rx_sizes, tx_sizes. simpl flat_map.
      subst h. names. repeat split; reflexivity.
    + subst h. rewrite Close_log. repeat split; reflexivity.
Qed.

(** X2.  Over any interleaving of calls on a constructed channel handler,
    the link and application-wide rx size histograms are fed exactly the
    body sizes of the [Rx] messages, in call order, and the tx size
    histograms those of the [Tx] messages; hence each message meter counts
    the updates of its histogram and each byte meter sums them. *)
Theorem X2_histograms_any_interleaving (linkId : string) (w0 w : World)
    (sched : list (Time * Invocation)) :
  let h := eval (NewChannelPeekHandler linkId) w0 in
  let evs := emitted (run h sched) w in
  (updates (linkRxMsgSizeHistogram h) evs = rx_sizes sched
   /\ updates (appRxMsgSizeHistogram h) evs = rx_sizes sched
   /\ updates (linkTxMsgSizeHistogram h) evs = tx_sizes sched
   /\ updates (appTxMsgSizeHistogram h) evs = tx_sizes sched)
  /\
  (marked (linkRxMsgMeter h) evs = len (updates (linkRxMsgSizeHistogram h) evs)
   /\ marked (linkRxBytesMeter h) evs = total (updates (linkRxMsgSizeHistogram h) evs)
   /\ marked (linkTxMsgMeter h) evs = len (updates (linkTxMsgSizeHistogram h) evs)
   /\ marked (linkTxBytesMeter h) evs = total (updates (linkTxMsgSizeHistogram h) evs)).
Proof.
  intros h evs. subst h evs.
  rewrite NewChannelPeekHandler_eval, run_emitted.
  destruct (log_updates linkId sched) as [(R1 & R2) (T1 & T2)].
  destruct (log_marked linkId sched) as [(M1 & M2 & _) (M3 & M4 & _)].
  rewrite R1, R2, T1, T2, M1, M2, M3, M4. repeat split; reflexivity.
Qed.

Lemma log_usage linkId sched :
  let h := channel_tap linkId in
  let evs := log_of h sched in
  usage (usageRxCounter h) evs = rx_usage sched
  /\ usage (usageTxCounter h) evs = tx_usage sched
  /\ errors_logged evs
     = map (fun err => "Failed to unmarshal payload. Error: " ++ err)
         (decode_errors sched).
Proof.
  intros h evs. subst evs.
  induction sched as [ | [t i] rest IH ].
  - repeat split; reflexivity.
  - rewrite log_of_cons, !usage_app, errors_logged_app.
    destruct IH as (R & T & E).
    rewrite R, T, E. clear R T E.
    unfold rx_usage, tx_usage, decode_errors, payload_frames.
    simpl flat_map. simpl snd. simpl fst.
    rewrite (flat_map_app _ _ (flat_map _ rest)), map_app.
    destruct i as [ ch a | msg ch | msg ch | ch ]; simpl invoke.
    + repeat split; reflexivity.
    + rewrite Rx_log. unfold is_payload_frame.
      destruct (_ =? _)%Z.
      * destruct (UnmarshallPayload msg) eqn:Hd; subst h; cbn; rewrite ?Hd;
          repeat split; reflexivity.
      * subst h. repeat split; reflexivity.
    + rewrite Tx_log. unfold is_payload_frame.
      destruct (_ =? _)%Z.
      * destruct (UnmarshallPayload msg) eqn:Hd; subst h; cbn; rewrite ?Hd;
          repeat split; reflexivity.
      * subst h. repeat split; reflexivity.
    + subst h. rewrite Close_log. repeat split; reflexivity.
Qed.

Lemma log_frames linkId sched :
  let evs := log_of (channel_tap linkId) sched in
  (List.length (all_usage evs) + List.length (errors_logged evs)
   = List.length (payload_frames sched))%nat.
Proof.
  intros evs. subst evs.
  induction sched as [ | [t i] rest IH ]; [ reflexivity | ].
  rewrite log_of_cons, errors_logged_app, all_usage_app, !length_app.
  unfold payload_frames in *. simpl flat_map. rewrite length_app, <- IH.
  simpl snd.
  destruct i as [ ch a | msg ch | msg ch | ch ]; simpl invoke.
  - simpl. lia.
  - rewrite Rx_log. unfold is_payload_frame.
    destruct (_ =? _)%Z; [ destruct (UnmarshallPayload msg) | ]; simpl; lia.
  - rewrite Tx_log. unfold is_payload_frame.
    destruct (_ =? _)%Z; [ destruct (UnmarshallPayload msg) | ]; simpl; lia.
  - rewrite Close_log. simpl. lia.
Qed.

(** X3.  Over any interleaving of calls on a constructed channel handler,
    the inbound usage counter receives one record for each [Rx] message
    that is a payload frame and decodes (session id, clock reading of that
    call, length of the decoded data), in call order, and nothing from [Tx],
    [Connect] or [Close]; the outbound usage counter likewise for [Tx]; and
    the error lines are those of the payload frames that fail to decode. *)
Theorem X3_usage_any_interleaving (linkId : string) (w0 w : World)
    (sched : list (Time * Invocation)) :
  let h := eval (NewChannelPeekHandler linkId) w0 in
  let evs := emitted (run h sched) w in
  usage (usageRxCounter h) evs = rx_usage sched
  /\ usage (usageTxCounter h) evs = tx_usage sched
  /\ errors_logged evs
     = map (fun err => "Failed to unmarshal payload. Error: " ++ err)
         (decode_errors sched).
Proof.
  intros h evs. subst h evs.
  rewrite NewChannelPeekHandler_eval, run_emitted.
  apply log_usage.
Qed.

(** X4.  Over any interleaving of calls on a constructed channel handler,
    every message tagged as a payload frame, in either direction, accounts
    for exactly one usage update or exactly one error line, and no other
    call produces either: usage updates plus error lines equal the number
    of payload frames seen. *)
Theorem X4_one_outcome_per_payload_frame (linkId : string) (w0 w : World)
    (sched : list (Time * Invocation)) :
  let h := eval (NewChannelPeekHandler linkId) w0 in
  let evs := emitted (run h sched) w in
  (List.length (all_usage evs) + List.length (errors_logged evs)
   = List.length (payload_frames sched))%nat.
Proof.
  intros h evs. subst h evs.
  rewrite NewChannelPeekHandler_eval, run_emitted.
  apply log_frames.
Qed.

(** ** Which handles a schedule reaches *)

Lemma invoke_touched linkId t i :
  let evs := events (exec (invoke (channel_tap linkId) i) (mkWorld nil t)) in
  requested evs = nil
  /\ forall g, In g (touched evs) -> In g (channel_handles (channel_tap linkId)).
Proof.
  destruct i as [ ch a | msg ch | msg ch | ch ]; simpl invoke.
  - split; [ reflexivity | intros g [] ].
  - rewrite Rx_log.
    destruct (_ =? _)%Z; [ destruct (UnmarshallPayload msg) | ];
      (split; [ reflexivity | ]); intros g Hg; cbn in Hg |- *; tauto.
  - rewrite Tx_log.
    destruct (_ =? _)%Z; [ destruct (UnmarshallPayload msg) | ];
      (split; [ reflexivity | ]); intros g Hg; cbn in Hg |- *; tauto.
  - rewrite Close_log. split; [ reflexivity | ].
    intros g Hg; cbn in Hg |- *; tauto.
Qed.

Lemma log_touched linkId sched :
  let evs := log_of (channel_tap linkId) sched in
  requested evs = nil
  /\ forall g, In g (touched evs) -> In g (channel_handles (channel_tap linkId)).
Proof.
  induction sched as [ | [t i] rest IH ].
  - split; [ reflexivity | intros g [] ].
  - cbv zeta in *. rewrite log_of_cons, requested_app, touched_app.
    destruct (invoke_touched linkId t i) as [Hr Ht].
    destruct IH as [IHr IHt]. rewrite Hr, IHr. split; [ reflexivity | ].
    intros g Hg. apply in_app_or in Hg as [Hg | Hg]; auto.
Qed.

Lemma close_shared_disposals linkId g :
  In g (app_handles (channel_tap linkId) ++ usage_handles (channel_tap linkId)) ->
  disposals g (map EvDispose (link_handles (channel_tap linkId))) = 0%nat.
Proof.
  intros Hg. simpl in Hg.
  repeat (destruct Hg as [ <- | Hg ]; [ reflexivity | ]).
  destruct Hg.
Qed.

Lemma log_shared_disposals linkId sched g :
  In g (app_handles (channel_tap linkId) ++ usage_handles (channel_tap linkId)) ->
  disposals g (log_of (channel_tap linkId) sched) = 0%nat.
Proof.
  intros Hg. induction sched as [ | [t i] rest IH ]; [ reflexivity | ].
  rewrite log_of_cons, disposals_app, IH, Nat.add_0_r.
  destruct (is_close (t, i)) eqn:Hc.
  - destruct i; try discriminate. simpl invoke. rewrite Close_log.
    now apply close_shared_disposals.
  - apply disposals_no_dispose. now apply invoke_no_dispose.
Qed.

(** X5.  Over any interleaving of calls on a constructed channel handler,
    however many [Close] calls it holds, no application-wide handle and no
    usage counter is ever disposed; the handler makes no registry request
    after construction; and every handle it acts on is one of the fourteen
    it was constructed with. *)
Theorem X5_shared_handles_never_disposed (linkId : string) (w0 w : World)
    (sched : list (Time * Invocation)) :
  let h := eval (NewChannelPeekHandler linkId) w0 in
  let evs := emitted (run h sched) w in
  (forall g, In g (app_handles h ++ usage_handles h) -> disposals g evs = 0%nat)
  /\ requested evs = nil
  /\ (forall g, In g (touched evs) -> In g (channel_handles h)).
Proof.
  intros h evs. subst h evs.
  rewrite NewChannelPeekHandler_eval, run_emitted.
  split; [ intros g Hg; now apply log_shared_disposals | apply log_touched ].
Qed.

(** ** Distinct handles *)

Lemma Handle_eqb_refl g : Handle_eqb g g = true.
Proof.
  destruct g as [ m | g | c ]; simpl.
  - apply String.eqb_refl.
  - apply String.eqb_refl.
  - unfold IntervalCounter_eqb. now rewrite String.eqb_refl, Z.eqb_refl.
Qed.

Lemma existsb_eqb_In g l : existsb (Handle_eqb g) l = false -> ~ In g l.
Proof.
  induction l as [ | a l IH ]; simpl; [ tauto | ].
  intros H. apply orb_false_iff in H as [Ha Hl].
  intros [ -> | Hin ].
  - rewrite Handle_eqb_refl in Ha. discriminate.
  - now apply IH.
Qed.

Lemma distinct_handles_NoDup l : distinct_handles l = true -> NoDup l.
Proof.
  induction l as [ | g l IH ]; simpl; [ constructor | ].
  intros H. apply andb_true_iff in H as [Hg Hl].
  constructor; [ | now apply IH ].
  apply existsb_eqb_In. now apply negb_true_iff.
Qed.

(** X6.  Construction.  For every link id, [NewChannelPeekHandler] writes
    exactly fourteen registry requests and nothing else, the handles it
    stores are the ones it requested, and the fourteen are pairwise
    distinct, so no two fields of a handler share a handle.
    [NewXgressPeekHandler] likewise writes sixteen requests and nothing
    else, for the sixteen pairwise distinct handles it stores.  All six
    usage counters are requested with one-minute buckets. *)
Theorem X6_constructors (linkId : string) (w0 w : World) :
  let hc := eval (NewChannelPeekHandler linkId) w0 in
  let hx := eval NewXgressPeekHandler w0 in
  let evc := emitted (NewChannelPeekHandler linkId) w in
  let evx := emitted NewXgressPeekHandler w in
  (evc = map EvRequest (channel_handles hc)
   /\ List.length (channel_handles hc) = 14%nat
   /\ NoDup (channel_handles hc))
  /\
  (map EvRequest (requested evx) = evx
   /\ (forall g, In g (requested evx) <-> In g (xgress_handles hx))
   /\ List.length (xgress_handles hx) = 16%nat
   /\ NoDup (xgress_handles hx))
  /\
  (forall c, In (HCounter c) (channel_handles hc ++ xgress_handles hx) ->
     counter_interval c = time.Minute).
Proof.
  intros hc hx evc evx. subst hc hx evc evx.
  rewrite NewXgressPeekHandler_eval, NewChannelPeekHandler_eval.
  rewrite (appends_emitted _ _ w appends_NewXgressPeekHandler).
  rewrite (appends_emitted _ _ w (appends_NewChannelPeekHandler linkId)).
  split; [ | split ].
  - split; [ reflexivity | ]. split; [ reflexivity | ].
    apply distinct_handles_NoDup. names. reflexivity.
  - split; [ reflexivity | ]. split; [ | split; [ reflexivity | ] ].
    + intros g. cbn. tauto.
    + apply distinct_handles_NoDup. reflexivity.
  - intros c Hc. cbn in Hc.
    repeat (destruct Hc as [ Hc | Hc ];
            [ try discriminate Hc; injection Hc as <-; reflexivity | ]).
    destruct Hc.
Qed.

(** ** Handlers of different links *)

Lemma length_append (a b : string) :
  String.length (a ++ b) = (String.length a + String.length b)%nat.
Proof. induction a as [ | c a IH ]; simpl; [ reflexivity | now rewrite IH ]. Qed.

Lemma append_assoc (a b c : string) : (a ++ b) ++ c = a ++ (b ++ c).
Proof. induction a as [ | x a IH ]; simpl; [ reflexivity | now rewrite IH ]. Qed.

Lemma append_inj_same_length (a b s1 s2 : string) :
  String.length s1 = String.length s2 -> a ++ s1 = b ++ s2 -> a = b.
Proof.
  intros Hlen. revert b.
  induction a as [ | x a IH ]; intros [ | y b ] Heq; simpl in Heq.
  - reflexivity.
  - apply (f_equal String.length) in Heq. simpl in Heq.
    rewrite length_append in Heq. lia.
  - apply (f_equal String.length) in Heq. simpl in Heq.
    rewrite length_append in Heq. lia.
  - injection Heq as -> Heq. f_equal. now apply IH.
Qed.

Lemma append_inj_tail (a b p q s : string) :
  String.length q = String.length s -> a ++ (p ++ q) = b ++ s -> q = s.
Proof.
  intros Hlen Heq. rewrite <- append_assoc in Heq.
  pose proof (append_inj_same_length _ _ _ _ Hlen Heq) as <-.
  apply String.eqb_eq. rewrite <- (append_eqb_cancel (a ++ p)).
  now apply String.eqb_eq.
Qed.

(** Two link names built from different link ids differ, whatever the two
    suffixes among those the constructor uses. *)
Ltac link_names_differ Hab :=
  apply String.eqb_neq; intros Heq;
  first
    [ match type of Heq with
      | (?x ++ ?s1 = ?y ++ ?s2)%string =>
          apply Hab;
          first [ exact (append_inj_same_length y x s2 s1 eq_refl (eq_sym Heq))
                | exact (append_inj_same_length x y s1 s2 eq_refl Heq) ]
      end
    | match type of Heq with
      | (?a ++ String ?c1 (String ?c2 (String ?c3 ?q)) = ?b ++ ?s)%string =>
          discriminate
            (append_inj_tail a b (String c1 (String c2 EmptyString)) (String c3 q) s
               eq_refl Heq)
      end
    | match type of Heq with
      | (?b ++ ?s = ?a ++ String ?c1 (String ?c2 (String ?c3 ?q)))%string =>
          discriminate
            (append_inj_tail a b (String c1 (String c2 EmptyString)) (String c3 q) s
               eq_refl (eq_sym Heq))
      end ].

Lemma foreign_link_handles (a b : string) (g g' : Handle) :
  a <> b ->
  In g (channel_handles (channel_tap a)) ->
  In g' (link_handles (channel_tap b)) ->
  Handle_eqb g' g = false.
Proof.
  intros Hab Hg Hg'. cbn in Hg, Hg'.
  repeat (destruct Hg' as [ <- | Hg' ]; [ | ]); try (destruct Hg');
    repeat (destruct Hg as [ <- | Hg ]; [ | ]); try (destruct Hg);
    cbn; try reflexivity; link_names_differ Hab.
Qed.

Lemma untouched_by (g : Handle) (l : list Event) :
  (forall g', In g' (touched l) -> Handle_eqb g g' = false) ->
  existsb (touches g) l = false.
Proof.
  induction l as [ | e l IH ]; intros H; [ reflexivity | ].
  simpl. rewrite IH.
  - rewrite orb_false_r. unfold touches.
    destruct (subject e) as [ g' | ] eqn:He; [ | reflexivity ].
    apply H. unfold touched. simpl. rewrite He. now left.
  - intros g' Hg'. apply H. unfold touched in *. simpl.
    apply in_or_app. now right.
Qed.

Lemma marked_untouched m l :
  existsb (touches (HMeter m)) l = false -> marked m l = 0.
Proof.
  induction l as [ | e l IH ]; [ reflexivity | ].
  simpl. intros H. apply orb_false_iff in H as [He Hl].
  destruct e; auto. unfold touches in He. simpl in He. rewrite He, IH; auto.
Qed.

(** X7.  Handlers of two different links share their six application-wide
    handles and two usage counters, and nothing else: whatever calls are
    made on the handler of link [a], no event touches a link-scoped handle
    of the handler of link [b]. *)
Theorem X7_links_are_isolated (a b : string) (w0 w : World)
    (sched : list (Time * Invocation)) :
  a <> b ->
  let ha := eval (NewChannelPeekHandler a) w0 in
  let hb := eval (NewChannelPeekHandler b) w0 in
  (app_handles ha = app_handles hb /\ usage_handles ha = usage_handles hb)
  /\ (forall g, In g (link_handles hb) ->
        existsb (touches g) (emitted (run ha sched) w) = false).
Proof.
  intros Hab ha hb. subst ha hb.
  rewrite !NewChannelPeekHandler_eval, run_emitted.
  split; [ split; reflexivity | ].
  intros g Hg. apply untouched_by. intros g' Hg'.
  apply (foreign_link_handles a b g' g Hab); [ | exact Hg ].
  exact (proj2 (log_touched a sched) g' Hg').
Qed.

(** X8.  Two links, one world.  After any schedule on the handler of link
    [a] followed by any schedule on the handler of link [b], the
    application-wide rx and tx byte meters have gained the sizes of the
    messages of both schedules, while the byte meters of each link have
    gained those of its own schedule only. *)
Theorem X8_two_links_aggregate (a b : string) (w0 w : World)
    (sa sb : list (Time * Invocation)) :
  a <> b ->
  let ha := eval (NewChannelPeekHandler a) w0 in
  let hb := eval (NewChannelPeekHandler b) w0 in
  let before := events w in
  let after := events (exec (run ha sa ;; run hb sb) w) in
  (marked (appRxBytesMeter ha) after
     = marked (appRxBytesMeter ha) before + total (rx_sizes sa) + total (rx_sizes sb)
   /\ marked (appTxBytesMeter ha) after
     = marked (appTxBytesMeter ha) before + total (tx_sizes sa) + total (tx_sizes sb))
  /\
  (marked (linkRxBytesMeter ha) after
     = marked (linkRxBytesMeter ha) before + total (rx_sizes sa)
   /\ marked (linkTxBytesMeter ha) after
     = marked (linkTxBytesMeter ha) before + total (tx_sizes sa)
   /\ marked (linkRxBytesMeter hb) after
     = marked (linkRxBytesMeter hb) before + total (rx_sizes sb)
   /\ marked (linkTxBytesMeter hb) after
     = marked (linkTxBytesMeter hb) before + total (tx_sizes sb)).
Proof.
  intros Hab ha hb before after. subst ha hb before after.
  rewrite !NewChannelPeekHandler_eval.
  assert (Hev : events (exec (run (channel_tap a) sa ;; run (channel_tap b) sb) w)
                = ((events w ++ log_of (channel_tap a) sa)
                     ++ log_of (channel_tap b) sb)%list).
  { unfold exec, bind.
    destruct (run (channel_tap a) sa w) as [u w1] eqn:H1.
    pose proof (run_events a sa w) as Ea. unfold exec in Ea. rewrite H1 in Ea.
    pose proof (run_events b sb w1) as Eb. unfold exec in Eb.
    simpl in Ea. now rewrite Eb, Ea. }
  rewrite Hev, !marked_app. clear Hev.
  destruct (log_marked a sa) as [(A1 & _ & A3 & _) (A5 & _ & A7 & _)].
  destruct (log_marked b sb) as [(B1 & _ & B3 & _) (B5 & _ & B7 & _)].
  assert (Hba : b <> a) by (intros E; apply Hab; now symmetry).
  assert (Fab : forall m, In (HMeter m) (link_handles (channel_tap a)) ->
                          marked m (log_of (channel_tap b) sb) = 0).
  { intros m Hm. apply marked_untouched, untouched_by. intros g' Hg'.
    apply (foreign_link_handles b a g' _ Hba); [ | exact Hm ].
    exact (proj2 (log_touched b sb) g' Hg'). }
  assert (Fba : forall m, In (HMeter m) (link_handles (channel_tap b)) ->
                          marked m (log_of (channel_tap a) sa) = 0).
  { intros m Hm. apply marked_untouched, untouched_by. intros g' Hg'.
    apply (foreign_link_handles a b g' _ Hab); [ | exact Hm ].
    exact (proj2 (log_touched a sa) g' Hg'). }
  rewrite A1, A3, A5, A7, B1, B5.
  change (appRxBytesMeter (channel_tap a)) with (appRxBytesMeter (channel_tap b)).
  change (appTxBytesMeter (channel_tap a)) with (appTxBytesMeter (channel_tap b)).
  rewrite B3, B7.
  rewrite (Fab (linkRxBytesMeter (channel_tap a))) by (cbn; tauto).
  rewrite (Fab (linkTxBytesMeter (channel_tap a))) by (cbn; tauto).
  rewrite (Fba (linkRxBytesMeter (channel_tap b))) by (cbn; tauto).
  rewrite (Fba (linkTxBytesMeter (channel_tap b))) by (cbn; tauto).
  repeat split; lia.
Qed.

(** * Further properties of the xgress handler *)

Lemma appends_xgress_invoke h i : appends (xgress_invoke h i).
Proof.
  destruct i; simpl xgress_invoke.
  - apply appends_xgress_Rx.
  - apply appends_xgress_Tx.
  - apply appends_ret.
Qed.

Lemma xgress_run_events h sched : forall w,
  events (exec (xgress_run h sched) w) = (events w ++ xgress_log_of h sched)%list.
Proof.
  induction sched as [ | [t i] rest IH ]; intros w.
  - unfold exec. simpl. now rewrite app_nil_r.
  - unfold exec in *. simpl xgress_run. unfold bind, set_clock.
    rewrite (appends_xgress_invoke h i (mkWorld (events w) t)).
    cbn [now events]. rewrite IH. cbn [events].
    unfold xgress_log_of. simpl flat_map. unfold exec.
    now rewrite <- app_assoc.
Qed.

Lemma xgress_run_emitted h sched w :
  emitted (xgress_run h sched) w = xgress_log_of h sched.
Proof.
  unfold emitted. rewrite xgress_run_events.
  now rewrite skipn_app, skipn_all, Nat.sub_diag.
Qed.

Lemma xgress_log_of_cons h t i rest :
  xgress_log_of h ((t, i) :: rest)
  = (events (exec (xgress_invoke h i) (mkWorld nil t)) ++ xgress_log_of h rest)%list.
Proof. reflexivity. Qed.

(** What one payload call writes: the four instruments of its direction
    and of the class of its flow. *)
Lemma xgress_Rx_log h x p t :
  events (exec (xgressPeekHandler_Rx h x p) (mkWorld nil t))
  = [ EvUsage (usageCounter_of h DirRx (class_of x))
        (xgress.Token (xgress.sessionId x)) t (len (xgress.Data p));
      EvMark (msgMeter_of h DirRx (class_of x)) 1;
      EvMark (bytesMeter_of h DirRx (class_of x)) (len (xgress.Data p));
      EvUpdate (histogram_of h DirRx (class_of x)) (len (xgress.Data p)) ]%list.
Proof.
  unfold xgressPeekHandler_Rx, class_of.
  destruct (xgress.is_Initiator _); reflexivity.
Qed.

Lemma xgress_Tx_log h x p t :
  events (exec (xgressPeekHandler_Tx h x p) (mkWorld nil t))
  = [ EvUsage (usageCounter_of h DirTx (class_of x))
        (xgress.Token (xgress.sessionId x)) t (len (xgress.Data p));
      EvMark (msgMeter_of h DirTx (class_of x)) 1;
      EvMark (bytesMeter_of h DirTx (class_of x)) (len (xgress.Data p));
      EvUpdate (histogram_of h DirTx (class_of x)) (len (xgress.Data p)) ]%list.
Proof.
  unfold xgressPeekHandler_Tx, class_of.
  destruct (xgress.is_Initiator _); reflexivity.
Qed.

Lemma class_payloads_cons d c t i rest :
  class_payloads d c ((t, i) :: rest)
  = (match d, i with
     | DirRx, XInvRx x p | DirTx, XInvTx x p =>
         if FlowClass_eqb (class_of x) c then
           [ (xgress.Token (xgress.sessionId x), t, len (xgress.Data p)) ]
         else nil
     | _, _ => nil
     end ++ class_payloads d c rest)%list.
Proof.
  unfold class_payloads, dir_payloads. simpl flat_map.
  rewrite filter_app, map_app. f_equal.
  destruct d, i; simpl; try reflexivity;
    destruct (FlowClass_eqb _ _); reflexivity.
Qed.

Lemma total_app l1 l2 : total (l1 ++ l2) = total l1 + total l2.
Proof.
  unfold total. induction l1 as [ | a l1 IH ]; simpl; [ reflexivity | ].
  rewrite IH. lia.
Qed.

Lemma len_app A (l1 l2 : list A) : len (l1 ++ l2) = len l1 + len l2.
Proof. unfold len. rewrite length_app. lia. Qed.

Lemma xgress_log_instruments d c sched :
  let h := xgress_tap in
  let evs := xgress_log_of h sched in
  usage (usageCounter_of h d c) evs = class_payloads d c sched
  /\ updates (histogram_of h d c) evs = amounts (class_payloads d c sched)
  /\ marked (bytesMeter_of h d c) evs = total (amounts (class_payloads d c sched))
  /\ marked (msgMeter_of h d c) evs = len (class_payloads d c sched).
Proof.
  intros h evs. subst evs.
  induction sched as [ | [t i] rest IH ].
  - repeat split; reflexivity.
  - rewrite xgress_log_of_cons, class_payloads_cons.
    rewrite usage_app, updates_app, !marked_app.
    unfold amounts in *. rewrite map_app, total_app, len_app.
    destruct IH as (U & H & B & N). rewrite U, H, B, N. clear U H B N.
    destruct i as [ x p | x p | x ]; simpl xgress_invoke.
    + rewrite xgress_Rx_log.
      destruct d, c, (class_of x); subst h; cbn; repeat split; reflexivity || lia.
    + rewrite xgress_Tx_log.
      destruct d, c, (class_of x); subst h; cbn; repeat split; reflexivity || lia.
    + destruct d; repeat split; reflexivity.
Qed.

(** X9.  Over any interleaving of [Rx], [Tx] and [Close] calls on a
    constructed xgress handler, and for each direction and flow class, the
    usage counter of that direction and class receives one record (session
    token, clock reading of the call, payload size) for each payload that
    travels in that direction on a flow of that class, in call order, and
    nothing else; its histogram receives those sizes, its byte meter their
    sum and its message meter their number. *)
Theorem X9_xgress_instruments (w0 w : World) (d : Direction) (c : FlowClass)
    (sched : list (Time * XgressInvocation)) :
  let h := eval NewXgressPeekHandler w0 in
  let evs := emitted (xgress_run h sched) w in
  usage (usageCounter_of h d c) evs = class_payloads d c sched
  /\ updates (histogram_of h d c) evs = amounts (class_payloads d c sched)
  /\ marked (bytesMeter_of h d c) evs = total (amounts (class_payloads d c sched))
  /\ marked (msgMeter_of h d c) evs = len (class_payloads d c sched).
Proof.
  intros h evs. subst h evs.
  rewrite NewXgressPeekHandler_eval, xgress_run_emitted.
  apply xgress_log_instruments.
Qed.

(** X10.  The four instruments of a direction and class always agree:
    over any schedule on a constructed xgress handler, the histogram holds
    the amounts of the usage records, the byte meter their sum and the
    message meter their number. *)
Theorem X10_xgress_instruments_agree (w0 w : World) (d : Direction) (c : FlowClass)
    (sched : list (Time * XgressInvocation)) :
  let h := eval NewXgressPeekHandler w0 in
  let evs := emitted (xgress_run h sched) w in
  let records := usage (usageCounter_of h d c) evs in
  updates (histogram_of h d c) evs = amounts records
  /\ marked (bytesMeter_of h d c) evs = total (amounts records)
  /\ marked (msgMeter_of h d c) evs = len records.
Proof.
  intros h evs records. subst h evs records.
  rewrite NewXgressPeekHandler_eval, xgress_run_emitted.
  destruct (xgress_log_instruments d c sched) as (U & H & B & N).
  rewrite U, H, B, N. repeat split; reflexivity.
Qed.

Lemma class_partition (l : list (xgress.Xgress * (string * Time * Z))) :
  let pick c := map snd (filter (fun xr => FlowClass_eqb (class_of (fst xr)) c) l) in
  total (amounts (pick Ingress)) + total (amounts (pick Egress))
  = total (amounts (map snd l))
  /\ len (pick Ingress) + len (pick Egress) = len l.
Proof.
  cbv zeta. induction l as [ | [x r] l [IHt IHn] ]; [ split; reflexivity | ].
  simpl filter. simpl fst. rewrite (len_cons _ (x, r) l).
  destruct (class_of x); simpl FlowClass_eqb; cbv iota;
    simpl map; unfold amounts, total in *; simpl fold_right;
    rewrite ?len_cons; split; lia.
Qed.

(** X11.  Every payload is counted in exactly one class.  Over any
    schedule on a constructed xgress handler and for each direction, the
    ingress and egress byte meters together gain the sizes of all payloads
    travelling in that direction, and the two message meters together count
    those payloads. *)
Theorem X11_xgress_classes_partition (w0 w : World) (d : Direction)
    (sched : list (Time * XgressInvocation)) :
  let h := eval NewXgressPeekHandler w0 in
  let evs := emitted (xgress_run h sched) w in
  marked (bytesMeter_of h d Ingress) evs + marked (bytesMeter_of h d Egress) evs
  = total (amounts (map snd (dir_payloads d sched)))
  /\ marked (msgMeter_of h d Ingress) evs + marked (msgMeter_of h d Egress) evs
     = len (dir_payloads d sched).
Proof.
  intros h evs. subst h evs.
  rewrite NewXgressPeekHandler_eval, xgress_run_emitted.
  destruct (xgress_log_instruments d Ingress sched) as (_ & _ & B1 & N1).
  destruct (xgress_log_instruments d Egress sched) as (_ & _ & B2 & N2).
  rewrite B1, B2, N1, N2. unfold class_payloads.
  exact (class_partition (dir_payloads d sched)).
Qed.

Lemma xgress_invoke_quiet t i :
  let evs := events (exec (xgress_invoke xgress_tap i) (mkWorld nil t)) in
  no_dispose evs = true
  /\ only_handle_calls evs = true
  /\ forall g, In g (touched evs) -> In g (xgress_handles xgress_tap).
Proof.
  destruct i as [ x p | x p | x ]; simpl xgress_invoke.
  - rewrite xgress_Rx_log. destruct (class_of x);
      (split; [ reflexivity | ]; split; [ reflexivity | ]);
      intros g Hg; cbn in Hg |- *; tauto.
  - rewrite xgress_Tx_log. destruct (class_of x);
      (split; [ reflexivity | ]; split; [ reflexivity | ]);
      intros g Hg; cbn in Hg |- *; tauto.
  - split; [ reflexivity | ]. split; [ reflexivity | ]. intros g [].
Qed.

(** X12.  What the xgress handler never does.  Over any schedule of [Rx],
    [Tx] and [Close] calls on a constructed handler, nothing is disposed,
    no error line is written, no registry request is made, and every handle
    acted on is one of the sixteen the handler was constructed with. *)
Theorem X12_xgress_never_disposes (w0 w : World)
    (sched : list (Time * XgressInvocation)) :
  let h := eval NewXgressPeekHandler w0 in
  let evs := emitted (xgress_run h sched) w in
  no_dispose evs = true
  /\ only_handle_calls evs = true
  /\ (forall g, In g (touched evs) -> In g (xgress_handles h)).
Proof.
  intros h evs. subst h evs.
  rewrite NewXgressPeekHandler_eval, xgress_run_emitted.
  induction sched as [ | [t i] rest (IHd & IHc & IHt) ].
  - split; [ reflexivity | ]. split; [ reflexivity | ]. intros g [].
  - rewrite xgress_log_of_cons.
    destruct (xgress_invoke_quiet t i) as (Hd & Hc & Ht).
    unfold no_dispose, only_handle_calls in *.
    rewrite !forallb_app, Hd, Hc, IHd, IHc, touched_app.
    split; [ reflexivity | ]. split; [ reflexivity | ].
    intros g Hg. apply in_app_or in Hg as [Hg | Hg]; auto.
Qed.

End ChannelPeekHandler.

(** * The claims on concrete runs

    The handlers instantiated with the reference frame layout, a one-point
    channel type and content type 1100. *)

Lemma C3_decode_failure_witness :
  let h := channel_tap "L1" in
  let w := mkWorld nil 5 in
  channel2.ContentType sample_bad_frame = int32 frame_ContentTypePayloadType
  /\ frame_UnmarshallPayload sample_bad_frame = inr "empty frame"
  /\ channelPeekHandler_Rx unit frame_UnmarshallPayload frame_ContentTypePayloadType
       h sample_bad_frame tt w
     = (tt, mkWorld [ EvMark (linkRxBytesMeter h) 0;
                      EvMark (linkRxMsgMeter h) 1;
                      EvUpdate (linkRxMsgSizeHistogram h) 0;
                      EvMark (appRxBytesMeter h) 0;
                      EvMark (appRxMsgMeter h) 1;
                      EvUpdate (appRxMsgSizeHistogram h) 0;
                      EvLogError "Failed to unmarshal payload. Error: empty frame" ]%list
                    5).
Proof.
  intros h w. split; [ reflexivity | ]. split; [ reflexivity | ].
  exact (proj1 (proj1 (C3_decode_failure unit frame_UnmarshallPayload
                         frame_ContentTypePayloadType h sample_bad_frame tt
                         "empty frame" w eq_refl eq_refl))).
Defined.

Lemma C4_usage_update_witness :
  let h := channel_tap "L1" in
  let w := mkWorld nil 7 in
  channel2.ContentType sample_frame_S1 = int32 frame_ContentTypePayloadType
  /\ frame_UnmarshallPayload sample_frame_S1 = inl sample_payload_S1
  /\ all_usage (emitted (channelPeekHandler_Rx unit frame_UnmarshallPayload
                           frame_ContentTypePayloadType h sample_frame_S1 tt) w)
     = [ (usageRxCounter h, "S1", 7, 40) ]%list
  /\ channel2.ContentType sample_plain <> int32 frame_ContentTypePayloadType
  /\ all_usage (emitted (channelPeekHandler_Rx unit frame_UnmarshallPayload
                           frame_ContentTypePayloadType h sample_plain tt) w)
     = nil.
Proof.
  intros h w.
  assert (Hne : channel2.ContentType sample_plain <> int32 frame_ContentTypePayloadType)
    by (vm_compute; lia).
  split; [ reflexivity | ]. split; [ reflexivity | ]. split.
  - exact (proj1 (proj1 (C4_usage_update unit frame_UnmarshallPayload
                           frame_ContentTypePayloadType h sample_frame_S1 tt w)
                        sample_payload_S1 eq_refl eq_refl)).
  - split; [ exact Hne | ].
    exact (proj2 (C4_usage_update unit frame_UnmarshallPayload
                    frame_ContentTypePayloadType h sample_plain tt w) Hne).
Defined.

(** C6 as stated fails on the code: two [Close] calls dispose every
    link-scoped handle twice, and an [Rx] after [Close] marks the link rx
    meters although they were disposed. *)
Lemma C6_counterexample :
  let h := channel_tap "L1" in
  let run' := run unit frame_UnmarshallPayload frame_ContentTypePayloadType h in
  let twice := [ (1, InvClose unit tt); (2, InvClose unit tt) ]%list in
  let late := [ (1, InvClose unit tt); (2, InvRx unit sample_plain tt) ]%list in
  disposals (HMeter (linkRxBytesMeter h)) (emitted (run' twice) (mkWorld nil 0)) = 2%nat
  /\ disposed_at_most_once h (emitted (run' twice) (mkWorld nil 0)) = false
  /\ never_used_after_dispose h (emitted (run' late) (mkWorld nil 0)) = false.
Proof. vm_compute. repeat split; reflexivity. Qed.

Lemma C6_disposal_per_close_witness :
  let h := channel_tap "L1" in
  let sched := [ (1, InvRx unit sample_plain tt); (2, InvTx unit sample_frame_S1 tt);
                 (3, InvClose unit tt) ]%list in
  let evs := emitted (run unit frame_UnmarshallPayload frame_ContentTypePayloadType
                        h sched) (mkWorld nil 0) in
  close_only_last unit sched = true
  /\ disposed_at_most_once h evs = true
  /\ never_used_after_dispose h evs = true.
Proof.
  intros h sched evs. split; [ reflexivity | ].
  destruct (C6_disposal_per_close unit frame_UnmarshallPayload
              frame_ContentTypePayloadType "L1" (mkWorld nil 0) (mkWorld nil 0)
              sched) as (_ & _ & _ & Hlast).
  exact (Hlast eq_refl).
Defined.

Lemma C7_scenario_L1_witness :
  let prog :=
    h <- NewChannelPeekHandler "L1" ;;
    set_clock 1 ;;
    channelPeekHandler_Rx unit frame_UnmarshallPayload frame_ContentTypePayloadType
      h sample_plain tt ;;
    set_clock 2 ;;
    channelPeekHandler_Tx unit frame_UnmarshallPayload frame_ContentTypePayloadType
      h sample_frame_S1 tt ;;
    ret h in
  let h := eval prog (mkWorld nil 0) in
  let evs := events (exec prog (mkWorld nil 0)) in
  (len (channel2.Body sample_plain) = 100
   /\ channel2.ContentType sample_plain <> int32 frame_ContentTypePayloadType
   /\ len (channel2.Body sample_frame_S1) = 50
   /\ channel2.ContentType sample_frame_S1 = int32 frame_ContentTypePayloadType
   /\ frame_UnmarshallPayload sample_frame_S1 = inl sample_payload_S1
   /\ xgress.SessionId_ sample_payload_S1 = "S1"
   /\ len (xgress.Data sample_payload_S1) = 40)
  /\ marked (linkRxBytesMeter h) evs = 100
  /\ marked (linkTxBytesMeter h) evs = 50
  /\ all_usage evs = [ (usageTxCounter h, "S1", 2, 40) ]%list
  /\ usage (usageTxCounter h) evs = [ ("S1", 2, 40) ]%list
  /\ usage (usageRxCounter h) evs = nil.
Proof.
  assert (Hne : channel2.ContentType sample_plain <> int32 frame_ContentTypePayloadType)
    by (vm_compute; lia).
  intros prog h evs. split.
  - repeat split; try reflexivity. exact Hne.
  - exact (C7_scenario_L1 unit frame_UnmarshallPayload frame_ContentTypePayloadType
             0 1 2 tt sample_plain sample_frame_S1 sample_payload_S1
             eq_refl Hne eq_refl eq_refl eq_refl eq_refl eq_refl).
Defined.

Lemma C2_classification_witness :
  let h := xgress_tap in
  let w := mkWorld nil 3 in
  let p := sample_payload_S1 in
  let xi := xgress.mkXgress xgress.Initiator (xgress.mkSessionId "S2") in
  let xa := xgress.mkXgress xgress.Acceptor (xgress.mkSessionId "S3") in
  (xgress.originator xi = xgress.Initiator
   /\ touched (emitted (xgressPeekHandler_Rx h xi p) w) = ingress_rx_handles h
   /\ touched (emitted (xgressPeekHandler_Tx h xi p) w) = ingress_tx_handles h)
  /\ (xgress.originator xa <> xgress.Initiator
      /\ touched (emitted (xgressPeekHandler_Rx h xa p) w) = egress_rx_handles h
      /\ touched (emitted (xgressPeekHandler_Tx h xa p) w) = egress_tx_handles h).
Proof.
  assert (Hne : xgress.Acceptor <> xgress.Initiator) by discriminate.
  intros h w p xi xa. split.
  - split; [ reflexivity | ].
    destruct (proj1 (C2_classification (mkWorld nil 0) w xi p) eq_refl)
      as (_ & _ & Hrx & Htx & _).
    split; [ exact Hrx | exact Htx ].
  - split; [ exact Hne | ].
    destruct (proj2 (C2_classification (mkWorld nil 0) w xa p) Hne)
      as (_ & _ & Hrx & Htx & _).
    split; [ exact Hrx | exact Htx ].
Defined.

Lemma C8_scenario_S2_witness :
  let p1 := xgress.mkPayload "S2" (repeat x00 10) in
  let p2 := xgress.mkPayload "S2" (repeat x00 5) in
  let x := xgress.mkXgress xgress.Initiator (xgress.mkSessionId "S2") in
  let prog :=
    h <- NewXgressPeekHandler ;;
    set_clock 1 ;; xgressPeekHandler_Rx h x p1 ;;
    set_clock 2 ;; xgressPeekHandler_Tx h x p2 ;;
    ret h in
  let h := eval prog (mkWorld nil 0) in
  let evs := events (exec prog (mkWorld nil 0)) in
  (len (xgress.Data p1) = 10 /\ len (xgress.Data p2) = 5)
  /\ marked (ingressRxBytesMeter h) evs = 10
  /\ marked (ingressTxBytesMeter h) evs = 5
  /\ (forall g, In g (egress_handles h) -> existsb (touches g) evs = false)
  /\ usage (ingressRxUsageCounter h) evs = [ ("S2", 1, 10) ]%list
  /\ usage (ingressTxUsageCounter h) evs = [ ("S2", 2, 5) ]%list
  /\ all_usage evs = [ (ingressRxUsageCounter h, "S2", 1, 10);
                       (ingressTxUsageCounter h, "S2", 2, 5) ]%list.
Proof.
  intros p1 p2 x prog h evs. split.
  - split; reflexivity.
  - exact (C8_scenario_S2 0 1 2 p1 p2 eq_refl eq_refl).
Defined.



Lemma X7_links_are_isolated_witness :
  let sched := [ (1, InvRx unit sample_plain tt); (2, InvTx unit sample_frame_S1 tt);
                 (3, InvClose unit tt) ]%list in
  "L1" <> "L2"
  /\ forall g, In g (link_handles (channel_tap "L2")) ->
       existsb (touches g)
         (emitted (run unit frame_UnmarshallPayload frame_ContentTypePayloadType
                     (channel_tap "L1") sched) (mkWorld nil 0)) = false.
Proof.
  assert (Hne : "L1" <> "L2") by discriminate.
  intros sched. split; [ exact Hne | ].
  exact (proj2 (X7_links_are_isolated unit frame_UnmarshallPayload
                  frame_ContentTypePayloadType "L1" "L2" (mkWorld nil 0)
                  (mkWorld nil 0) sched Hne)).
Defined.

Lemma X8_two_links_aggregate_witness :
  let s1 := [ (1, InvRx unit sample_plain tt); (2, InvTx unit sample_frame_S1 tt) ]%list in
  let s2 := [ (3, InvRx unit sample_frame_S1 tt); (4, InvClose unit tt) ]%list in
  let run' := run unit frame_UnmarshallPayload frame_ContentTypePayloadType in
  let after := events (exec (run' (channel_tap "L1") s1 ;; run' (channel_tap "L2") s2)
                         (mkWorld nil 0)) in
  "L1" <> "L2"
  /\ marked (appRxBytesMeter (channel_tap "L1")) after = 150
  /\ marked (linkRxBytesMeter (channel_tap "L1")) after = 100
  /\ marked (linkRxBytesMeter (channel_tap "L2")) after = 50.
Proof.
  assert (Hne : "L1" <> "L2") by discriminate.
  intros s1 s2 run' after. split; [ exact Hne | ].
  destruct (X8_two_links_aggregate unit frame_UnmarshallPayload
              frame_ContentTypePayloadType "L1" "L2" (mkWorld nil 0) (mkWorld nil 0)
              s1 s2 Hne) as [(Ha & _) (Hl1 & _ & Hl2 & _)].
  split; [ exact Ha | ]. split; [ exact Hl1 | exact Hl2 ].
Defined.
